(** * Referral-code checker: a shallow embedding of [check_referrals.py]

    The script reads referral links from a CSV file, opens each one in a
    headless browser, classifies the rendered page by substring tests and
    writes a text report.  This development embeds the script's functions
    and states the properties of its specification over them.

    Modelling conventions.
    - A Python [str] is a Stdlib [string]; the development covers ASCII
      text (one [ascii] per character).  [str.lower] folds the letters
      [A-Z]; [str.strip] removes ASCII white space.  The one place where
      ASCII input gives other text is [unquote]: what it decodes is kept
      as the bytes of its UTF-8 encoding.
    - Exceptions are values: a fallible call returns a [result].
    - The browser is an injected capability: a [page] records the answer
      to every WebDriver call the script makes during one visit.
    - [print] and file writes act on an explicit [world].  The [world]
      has no directories or permissions: the runs covered are those in
      which the report file can be opened (see [open_w]).
    - [time.sleep] has no observable effect and is left out. *)

From Stdlib Require Import String Ascii List Bool Arith Lia Permutation.
From Stdlib Require Import DecimalString.
From Stdlib Require HexadecimalString.
From stdpp Require Import base option list gmap strings.

Local Open Scope string_scope.
Local Open Scope list_scope.

(** ** Python string primitives *)

Module PyStr.

(** [s.startswith(p)] *)
Fixpoint startswith (s p : string) {struct p} : bool :=
  match p with
  | EmptyString => true
  | String a p' =>
      match s with
      | EmptyString => false
      | String b s' => if Ascii.eqb a b then startswith s' p' else false
      end
  end.

(** [p in s]: [p] occurs in [s] at some offset. *)
Fixpoint isin (p s : string) : bool :=
  startswith s p ||
  match s with
  | EmptyString => false
  | String _ s' => isin p s'
  end.

(** [c in s] for a single character. *)
Fixpoint has_char (c : ascii) (s : string) : bool :=
  match s with
  | EmptyString => false
  | String b s' => Ascii.eqb c b || has_char c s'
  end.

Definition is_upper (c : ascii) : bool :=
  let n := nat_of_ascii c in ((65 <=? n) && (n <=? 90))%nat.

Definition lower_char (c : ascii) : ascii :=
  if is_upper c then ascii_of_nat (nat_of_ascii c + 32) else c.

(** [s.lower()] *)
Fixpoint lower (s : string) : string :=
  match s with
  | EmptyString => EmptyString
  | String c s' => String (lower_char c) (lower s')
  end.

(** White space removed by [str.strip()]: TAB, LF, VT, FF, CR,
    FS, GS, RS, US and the space. *)
Definition is_space (c : ascii) : bool :=
  let n := nat_of_ascii c in
  (((9 <=? n) && (n <=? 13)) || ((28 <=? n) && (n <=? 32)))%nat.

Fixpoint lstrip (s : string) : string :=
  match s with
  | EmptyString => EmptyString
  | String c s' => if is_space c then lstrip s' else s
  end.

Fixpoint rstrip (s : string) : string :=
  match s with
  | EmptyString => EmptyString
  | String c s' =>
      match rstrip s' with
      | EmptyString => if is_space c then EmptyString else String c EmptyString
      | r => String c r
      end
  end.

(** [s.strip()] *)
Definition strip (s : string) : string := rstrip (lstrip s).

(** [str(n)] for a non-negative integer. *)
Definition str_of_nat (n : nat) : string :=
  NilEmpty.string_of_uint (Nat.to_uint n).

(** [s * n] *)
Fixpoint repeat_str (s : string) (n : nat) : string :=
  match n with
  | O => EmptyString
  | S k => s +:+ repeat_str s k
  end.

(** Truth value of a string: [bool(s)]. *)
Definition truthy (s : string) : bool :=
  match s with EmptyString => false | _ => true end.

(** [s.partition(c)] restricted to what the callers use: the text
    before the first [c] and, when [c] occurs, the text after it. *)
Fixpoint split_first (c : ascii) (s : string) : string * option string :=
  match s with
  | EmptyString => (EmptyString, None)
  | String b s' =>
      if Ascii.eqb b c then (EmptyString, Some s')
      else let '(h, t) := split_first c s' in (String b h, t)
  end.

(** [s.split(c)] for a one-character separator. *)
Fixpoint split (c : ascii) (s : string) : list string :=
  match s with
  | EmptyString => [EmptyString]
  | String b s' =>
      if Ascii.eqb b c then EmptyString :: split c s'
      else match split c s' with
           | [] => [String b EmptyString]
           | h :: t => String b h :: t
           end
  end.

(** [s.replace(a, b)] for single characters. *)
Fixpoint replace_char (a b : ascii) (s : string) : string :=
  match s with
  | EmptyString => EmptyString
  | String c s' => String (if Ascii.eqb c a then b else c) (replace_char a b s')
  end.

(** [s.replace(a, "")] for a single character. *)
Fixpoint remove_char (a : ascii) (s : string) : string :=
  match s with
  | EmptyString => EmptyString
  | String c s' => if Ascii.eqb c a then remove_char a s' else String c (remove_char a s')
  end.

(** [len(s)] *)
Fixpoint len (s : string) : nat :=
  match s with
  | EmptyString => 0
  | String _ s' => S (len s')
  end.

(** ['%x' % n] *)
Definition hex_of_nat (n : nat) : string :=
  HexadecimalString.NilEmpty.string_of_uint (Nat.to_hex_uint n).

(** The two lower-case hexadecimal digits of a byte. *)
Definition hex_byte (n : nat) : string :=
  let digit d := ascii_of_nat (if (d <? 10)%nat then 48 + d else 87 + d) in
  String (digit (n / 16)) (String (digit (n mod 16)) EmptyString).

Definition backslash : ascii := ascii_of_nat 92.
Definition quote1 : ascii := ascii_of_nat 39.
Definition quote2 : ascii := ascii_of_nat 34.

(** One character of [repr(s)] inside the quotes [q]. *)
Definition repr_char (q c : ascii) : string :=
  let n := nat_of_ascii c in
  if Ascii.eqb c q || Ascii.eqb c backslash then String backslash (String c EmptyString)
  else if (n =? 9)%nat then String backslash "t"
  else if (n =? 10)%nat then String backslash "n"
  else if (n =? 13)%nat then String backslash "r"
  else if ((n <? 32) || (n =? 127))%nat then String backslash (String "x" (hex_byte n))
  else String c EmptyString.

Fixpoint repr_body (q : ascii) (s : string) : string :=
  match s with
  | EmptyString => EmptyString
  | String c s' => repr_char q c +:+ repr_body q s'
  end.

(** [repr(s)]: single quotes, or double quotes when the text has a single
    quote and no double quote. *)
Definition repr (s : string) : string :=
  let q := if has_char quote1 s && negb (has_char quote2 s) then quote2 else quote1 in
  String q (repr_body q s +:+ String q EmptyString).
End PyStr.

(** ** Exceptions *)

(** The [except] clauses of the script distinguish three classes.
    [TimeoutException] is a subclass of [WebDriverException] in Selenium;
    every other exception is [OtherException]. *)
Inductive exn_class : Type :=
| TimeoutException
| WebDriverException
| OtherException.

(** An exception: its class and the text [str(e)] gives. *)
Record exn : Type := MkExn { exn_cls : exn_class; exn_str : string }.

Inductive result (A : Type) : Type :=
| Ok (a : A)
| Raise (e : exn).
Arguments Ok {A} a.
Arguments Raise {A} e.

(** ** Constants *)

Definition DOLLAR_AMOUNT : nat := 50.

(** ** Text checks *)

(** [is_valid_code]: the f-string [f"${DOLLAR_AMOUNT}"] is the dollar sign
    followed by the decimal numeral of the constant. *)
Definition is_valid_code (text : string) : bool :=
  let has_credit := PyStr.isin "credit" text in
  let has_amount := PyStr.isin ("$" +:+ PyStr.str_of_nat DOLLAR_AMOUNT) text in
  has_credit && has_amount.

Definition invalid_phrases : list string :=
  [ "invalid referral code";
    "this referral code is invalid" ].

Definition is_invalid_code (text : string) : bool :=
  existsb (fun phrase => PyStr.isin phrase text) invalid_phrases
  || (PyStr.isin "invalid" text && PyStr.isin "referral" text && PyStr.isin "code" text).

(** The final condition of [is_invalid_code] taken alone. *)
Definition is_invalid_code_loose (text : string) : bool :=
  PyStr.isin "invalid" text && PyStr.isin "referral" text && PyStr.isin "code" text.

(** ** The browser as seen during one visit *)

(** What the WebDriver answers after [driver.get(url)]:
    - [nav]: the outcome of [driver.get(url)] itself;
    - [body_text]: [driver.find_element(By.TAG_NAME, "body").text]
      (either call may raise; both sit in the same [try]);
    - [page_source], [title]: the two properties;
    - [headings]: [driver.find_elements(By.CSS_SELECTOR, ...)] in document
      order, each element with the outcome of reading its [.text]. *)
Record page : Type := MkPage {
  nav : result unit;
  body_text : result string;
  page_source : result string;
  title : result string;
  headings : result (list (result string))
}.

(** [get_page_text] *)
Definition get_page_text (p : page) : result string :=
  match body_text p with
  | Ok t => Ok (PyStr.lower t)
  | Raise _ =>
      match page_source p with
      | Ok s => Ok (PyStr.lower s)
      | Raise e => Raise e
      end
  end.

(** Lines 93-98: the title check; an exception is swallowed. *)
Definition title_check (p : page) : option string :=
  match title p with
  | Ok t =>
      let title := PyStr.lower t in
      if PyStr.isin "invalid" title && PyStr.isin "referral" title
      then Some "invalid" else None
  | Raise _ => None
  end.

(** The loop body of lines 106-110 on a lower-cased element text. *)
Definition heading_verdict (text : string) : option string :=
  if PyStr.isin "invalid referral code" text then Some "invalid"
  else if PyStr.isin "credit" text && (PyStr.isin "$50" text || PyStr.isin "$20" text)
       then Some "valid"
       else None.

(** Lines 105-110: the loop over the elements; reading an element's text
    may raise, which leaves the loop. *)
Fixpoint scan_headings (hs : list (result string)) : result (option string) :=
  match hs with
  | [] => Ok None
  | Raise e :: _ => Raise e
  | Ok raw :: rest =>
      match heading_verdict (PyStr.lower raw) with
      | Some verdict => Ok (Some verdict)
      | None => scan_headings rest
      end
  end.

(** Lines 100-112: the element scan; an exception is swallowed. *)
Definition element_check (p : page) : option string :=
  match headings p with
  | Raise _ => None
  | Ok hs =>
      match scan_headings hs with
      | Ok verdict => verdict
      | Raise _ => None
      end
  end.

(** Lines 79-114: the body of the outer [try]. *)
Definition classify_page (p : page) : result string :=
  match nav p with
  | Raise e => Raise e
  | Ok _ =>
      match get_page_text p with
      | Raise e => Raise e
      | Ok page_text =>
          if is_valid_code page_text then Ok "valid"
          else if is_invalid_code page_text then Ok "invalid"
          else match title_check p with
               | Some verdict => Ok verdict
               | None =>
                   match element_check p with
                   | Some verdict => Ok verdict
                   | None => Ok "unknown"
                   end
               end
      end
  end.

(** ** The world: console and files *)

Record world : Type := MkWorld {
  console : list string;
  files : gmap string string
}.

Definition IO (A : Type) : Type := world -> A * world.

Definition ret {A} (a : A) : IO A := fun w => (a, w).
Definition bind {A B} (m : IO A) (k : A -> IO B) : IO B :=
  fun w => let '(a, w') := m w in k a w'.

Notation "'let*' x ':=' m 'in' k" := (bind m (fun x => k))
  (at level 10, x name, m at level 100, k at level 200).
Notation "'exec' m 'then' k" := (bind m (fun _ => k))
  (at level 10, m at level 100, k at level 200).

(** [print(s, end=e)]: one chunk written to standard output. *)
Definition print_end (s e : string) : IO unit :=
  fun w => (tt, {| console := console w ++ [s +:+ e]; files := files w |}).

Definition newline : string := String (ascii_of_nat 10) EmptyString.

(** [print(s)] *)
Definition print (s : string) : IO unit := print_end s newline.

(** [open(path, 'w')]: the file is created or truncated.  The call can
    raise [OSError] (a directory that does not exist, a path that cannot be
    written), and [save_results] runs it outside any [try]; [world] records
    no permissions or directories, so the development covers the runs in
    which the file can be opened and states nothing about the others. *)
Definition open_w (path : string) : IO unit :=
  fun w => (tt, {| console := console w; files := <[path := EmptyString]> (files w) |}).

(** [f.write(s)] on the file opened at [path]. *)
Definition write (path s : string) : IO unit :=
  fun w => (tt, {| console := console w;
                   files := alter (fun old => old +:+ s) path (files w) |}).

(** ** [check_referral_status] *)

(** The driver handed to [check_referral_status] shows, for the URL it is
    sent to, one [page]. *)
Definition check_referral_status (url : string) (driver : string -> page) : IO string :=
  match classify_page (driver url) with
  | Ok status => ret status
  | Raise e =>
      match exn_cls e with
      | TimeoutException =>
          exec print ("Timeout loading " +:+ url) then ret "error"
      | WebDriverException =>
          exec print ("WebDriver error for " +:+ url +:+ ": " +:+ exn_str e)
          then ret "error"
      | OtherException =>
          exec print ("Unexpected error for " +:+ url +:+ ": " +:+ exn_str e)
          then ret "error"
      end
  end.

(** ** [urllib.parse]: the part of the library [extract_code_from_url] runs

    [urlsplit], [parse_qsl], [parse_qs] and [unquote] follow CPython's
    [Lib/urllib/parse.py], in the versions whose [urlsplit] validates a
    bracketed host with [_check_bracketed_netloc] and
    [_check_bracketed_host]; the addresses that [ipaddress.ip_address]
    accepts follow [Lib/ipaddress.py].  Not modelled: the NFKC check of a
    netloc, which concerns non-ASCII text only. *)

Module Url.

Record SplitResult : Type := MkSplit {
  scheme : string;
  netloc : string;
  path : string;
  query : string;
  fragment : string
}.

Definition ValueError (msg : string) : exn := MkExn OtherException msg.

(** Characters in [_WHATWG_C0_CONTROL_OR_SPACE]. *)
Definition is_c0_or_space (c : ascii) : bool := (nat_of_ascii c <=? 32)%nat.

Fixpoint lstrip_c0 (s : string) : string :=
  match s with
  | EmptyString => EmptyString
  | String c s' => if is_c0_or_space c then lstrip_c0 s' else s
  end.

(** [_UNSAFE_URL_BYTES_TO_REMOVE]: TAB, CR and LF are deleted. *)
Definition remove_unsafe (s : string) : string :=
  PyStr.remove_char (ascii_of_nat 10)
    (PyStr.remove_char (ascii_of_nat 13)
       (PyStr.remove_char (ascii_of_nat 9) s)).

Definition is_alpha (c : ascii) : bool :=
  let n := nat_of_ascii c in
  (((65 <=? n) && (n <=? 90)) || ((97 <=? n) && (n <=? 122)))%nat.

Definition is_digit (c : ascii) : bool :=
  let n := nat_of_ascii c in ((48 <=? n) && (n <=? 57))%nat.

(** [scheme_chars]: letters, digits and [+-.] *)
Definition scheme_char (c : ascii) : bool :=
  is_alpha c || is_digit c || PyStr.has_char c "+-.".

Fixpoint all_chars (f : ascii -> bool) (s : string) : bool :=
  match s with
  | EmptyString => true
  | String c s' => f c && all_chars f s'
  end.

(** The scheme test of [urlsplit]: [i = url.find(':')], [i > 0], the
    first character an ASCII letter and [url[:i]] made of scheme
    characters. *)
Definition split_scheme (url : string) : string * string :=
  match PyStr.split_first ":" url with
  | (String c pre, Some rest) =>
      if is_alpha c && all_chars scheme_char (String c pre)
      then (PyStr.lower (String c pre), rest)
      else (EmptyString, url)
  | _ => (EmptyString, url)
  end.

(** [_splitnetloc(url, 2)] on the text after the two slashes: the netloc
    runs up to the first of [/], [?], [#]. *)
Fixpoint splitnetloc (s : string) : string * string :=
  match s with
  | EmptyString => (EmptyString, EmptyString)
  | String c s' =>
      if PyStr.has_char c "/?#" then (EmptyString, s)
      else let '(n, r) := splitnetloc s' in (String c n, r)
  end.

Definition hex_val (c : ascii) : option nat :=
  let n := nat_of_ascii c in
  if ((48 <=? n) && (n <=? 57))%nat then Some (n - 48)
  else if ((65 <=? n) && (n <=? 70))%nat then Some (n - 55)
  else if ((97 <=? n) && (n <=? 102))%nat then Some (n - 87)
  else None.

(** [int(s, 10)] for a text of decimal digits. *)
Definition decimal_value (s : string) : nat :=
  (fix go (acc : nat) (s : string) : nat :=
     match s with
     | EmptyString => acc
     | String c s' => go (10 * acc + (nat_of_ascii c - 48)) s'
     end) 0 s.

(** [IPv4Address._parse_octet]: the value of the octet, or [None] where
    the library raises. *)
Definition parse_octet (octet_str : string) : option nat :=
  if negb (PyStr.truthy octet_str) then None
  else if negb (all_chars is_digit octet_str) then None
  else if (3 <? PyStr.len octet_str)%nat then None
  else if negb (String.eqb octet_str "0") && PyStr.startswith octet_str "0" then None
  else if (255 <? decimal_value octet_str)%nat then None
  else Some (decimal_value octet_str).

(** [IPv4Address(s)]: the four octets, or [None] where the library raises
    [AddressValueError]. *)
Definition ipv4_address (addr_str : string) : option (list nat) :=
  if PyStr.has_char "/" addr_str then None
  else if negb (PyStr.truthy addr_str) then None
  else
    let octets := PyStr.split "." addr_str in
    if negb (length octets =? 4)%nat then None
    else mapM parse_octet octets.

(** [IPv6Address._parse_hextet], as to whether it succeeds; [int('', 16)]
    raises. *)
Definition hextet_ok (hextet_str : string) : bool :=
  all_chars (fun c => bool_decide (is_Some (hex_val c))) hextet_str
  && (PyStr.len hextet_str <=? 4)%nat
  && PyStr.truthy hextet_str.

(** The loop that looks for an empty part strictly between the first and
    the last: [None] where a second one makes the library raise. *)
Fixpoint find_skip (i : nat) (interior : list string) (skip_index : option nat)
  : option (option nat) :=
  match interior with
  | [] => Some skip_index
  | p :: rest =>
      if PyStr.truthy p then find_skip (S i) rest skip_index
      else match skip_index with
           | Some _ => None
           | None => find_skip (S i) rest (Some i)
           end
  end.

(** [IPv6Address._ip_int_from_string], as to whether it succeeds. *)
Definition ipv6_int_ok (ip_str : string) : bool :=
  if negb (PyStr.truthy ip_str) then false
  else
    let parts := PyStr.split ":" ip_str in
    if (length parts <? 3)%nat then false
    else
      let with_suffix :=
        if PyStr.has_char "." (List.last parts EmptyString) then
          match ipv4_address (List.last parts EmptyString) with
          | Some [a; b; c; d] =>
              Some (removelast parts
                    ++ [PyStr.hex_of_nat (256 * a + b); PyStr.hex_of_nat (256 * c + d)])
          | _ => None
          end
        else Some parts in
      match with_suffix with
      | None => false
      | Some parts =>
          if (9 <? length parts)%nat then false
          else
            let first_empty := negb (PyStr.truthy (List.hd EmptyString parts)) in
            let last_empty := negb (PyStr.truthy (List.last parts EmptyString)) in
            match find_skip 1 (removelast (List.tl parts)) None with
            | None => false
            | Some (Some skip_index) =>
                let parts_hi := skip_index in
                let parts_lo := length parts - skip_index - 1 in
                if first_empty && negb (parts_hi - 1 =? 0)%nat then false
                else if last_empty && negb (parts_lo - 1 =? 0)%nat then false
                else
                  let parts_hi := if first_empty then parts_hi - 1 else parts_hi in
                  let parts_lo := if last_empty then parts_lo - 1 else parts_lo in
                  if (8 <=? parts_hi + parts_lo)%nat then false
                  else forallb hextet_ok (take parts_hi parts)
                       && forallb hextet_ok (drop (length parts - parts_lo) parts)
            | Some None =>
                if negb (length parts =? 8)%nat then false
                else if first_empty then false
                else if last_empty then false
                else forallb hextet_ok parts
            end
      end.

(** [IPv6Address(s)], as to whether it succeeds: no slash, a scope id
    after [%] that is neither empty nor holds another [%]. *)
Definition ipv6_address_ok (addr_str : string) : bool :=
  if PyStr.has_char "/" addr_str then false
  else match PyStr.split_first "%" addr_str with
       | (addr, None) => ipv6_int_ok addr
       | (addr, Some scope_id) =>
           if negb (PyStr.truthy scope_id) || PyStr.has_char "%" scope_id then false
           else ipv6_int_ok addr
       end.

(** The match of [\Av[a-fA-F0-9]+\..+\Z] on a text that starts with [v]:
    hexadecimal digits, at least one, up to the first dot, and something
    after it. *)
Definition ipvfuture_ok (hostname : string) : bool :=
  match hostname with
  | String _ rest =>
      match PyStr.split_first "." rest with
      | (digits, Some tail) =>
          PyStr.truthy digits
          && all_chars (fun c => bool_decide (is_Some (hex_val c))) digits
          && PyStr.truthy tail
      | (_, None) => false
      end
  | EmptyString => false
  end.

(** [_check_bracketed_host] *)
Definition check_bracketed_host (hostname : string) : result unit :=
  if PyStr.startswith hostname "v" then
    if ipvfuture_ok hostname then Ok tt
    else Raise (ValueError "IPvFuture address is invalid")
  else
    match ipv4_address hostname with
    | Some _ => Raise (ValueError "An IPv4 address cannot be in brackets")
    | None =>
        if ipv6_address_ok hostname then Ok tt
        else Raise (ValueError (PyStr.repr hostname
                                +:+ " does not appear to be an IPv4 or IPv6 address"))
    end.

(** [_check_bracketed_netloc] *)
Definition check_bracketed_netloc (netloc : string) : result unit :=
  let hostname_and_port := List.last (PyStr.split "@" netloc) EmptyString in
  match PyStr.split_first "[" hostname_and_port with
  | (before_bracket, Some bracketed) =>
      if PyStr.truthy before_bracket then Raise (ValueError "Invalid IPv6 URL")
      else
        let '(hostname, port) :=
          match PyStr.split_first "]" bracketed with
          | (h, Some p) => (h, p)
          | (h, None) => (h, EmptyString)
          end in
        if PyStr.truthy port && negb (PyStr.startswith port ":")
        then Raise (ValueError "Invalid IPv6 URL")
        else check_bracketed_host hostname
  | (_, None) =>
      check_bracketed_host (fst (PyStr.split_first ":" hostname_and_port))
  end.

Definition brackets_unbalanced (netloc : string) : bool :=
  (PyStr.has_char "[" netloc && negb (PyStr.has_char "]" netloc))
  || (PyStr.has_char "]" netloc && negb (PyStr.has_char "[" netloc)).

(** The two bracket tests [urlsplit] runs on the netloc. *)
Definition check_netloc_brackets (netloc : string) : result unit :=
  if brackets_unbalanced netloc then Raise (ValueError "Invalid IPv6 URL")
  else if PyStr.has_char "[" netloc && PyStr.has_char "]" netloc
       then check_bracketed_netloc netloc
       else Ok tt.

Definition urlsplit (url0 : string) : result SplitResult :=
  let url := remove_unsafe (lstrip_c0 url0) in
  let '(scheme, url) := split_scheme url in
  let after_netloc :=
    match url with
    | String "/" (String "/" rest) =>
        let '(netloc, url') := splitnetloc rest in
        match check_netloc_brackets netloc with
        | Raise e => Raise e
        | Ok _ => Ok (netloc, url')
        end
    | _ => Ok (EmptyString, url)
    end in
  match after_netloc with
  | Raise e => Raise e
  | Ok (netloc, url) =>
      let '(url, fragment) :=
        match PyStr.split_first "#" url with
        | (u, Some f) => (u, f)
        | (u, None) => (u, EmptyString)
        end in
      let '(url, query) :=
        match PyStr.split_first "?" url with
        | (u, Some q) => (u, q)
        | (u, None) => (u, EmptyString)
        end in
      Ok (MkSplit scheme netloc url query fragment)
  end.

(** [urlparse] splits [;params] off the path of what [urlsplit] returns;
    the other components, [query] among them, are those of [urlsplit]. *)
Definition urlparse (url : string) : result SplitResult := urlsplit url.

Definition is_cont (b : ascii) : bool :=
  let n := nat_of_ascii b in ((128 <=? n) && (n <? 192))%nat.

(** The second byte of a three- or four-byte sequence: a continuation
    byte, and not one that would make the sequence overlong, a surrogate
    or a code point above U+10FFFF. *)
Definition second_ok (b0 b1 : ascii) : bool :=
  let n0 := nat_of_ascii b0 in
  let n1 := nat_of_ascii b1 in
  is_cont b1
  && negb ((n0 =? 224) && (n1 <? 160))%nat
  && negb ((n0 =? 237) && (160 <=? n1))%nat
  && negb ((n0 =? 240) && (n1 <? 144))%nat
  && negb ((n0 =? 244) && (144 <=? n1))%nat.

(** U+FFFD in UTF-8. *)
Definition replacement : string :=
  String (ascii_of_nat 239) (String (ascii_of_nat 191) (String (ascii_of_nat 189) EmptyString)).

(** [bytes.decode('utf-8', 'replace')], the result again in UTF-8: valid
    sequences stay, every maximal ill-formed part becomes U+FFFD. *)
Fixpoint utf8_replace (s : string) : string :=
  match s with
  | EmptyString => EmptyString
  | String b0 r0 =>
      let n0 := nat_of_ascii b0 in
      if (n0 <? 128)%nat then String b0 (utf8_replace r0)
      else if ((n0 <? 194) || (244 <? n0))%nat then replacement +:+ utf8_replace r0
      else
        match r0 with
        | EmptyString => replacement
        | String b1 r1 =>
            if (n0 <? 224)%nat then
              if is_cont b1 then String b0 (String b1 (utf8_replace r1))
              else replacement +:+ utf8_replace r0
            else if negb (second_ok b0 b1) then replacement +:+ utf8_replace r0
            else
              match r1 with
              | EmptyString => replacement
              | String b2 r2 =>
                  if negb (is_cont b2) then replacement +:+ utf8_replace r1
                  else if (n0 <? 240)%nat then
                    String b0 (String b1 (String b2 (utf8_replace r2)))
                  else
                    match r2 with
                    | EmptyString => replacement
                    | String b3 r3 =>
                        if is_cont b3 then
                          String b0 (String b1 (String b2 (String b3 (utf8_replace r3))))
                        else replacement +:+ utf8_replace r2
                    end
              end
        end
  end.

(** [unquote_to_bytes]: [%XX] with two hexadecimal digits becomes the
    byte; any other [%] stays. *)
Fixpoint unquote_to_bytes (s : string) : string :=
  match s with
  | EmptyString => EmptyString
  | String c s' =>
      if Ascii.eqb c "%" then
        match s' with
        | String h1 (String h2 rest) =>
            match hex_val h1, hex_val h2 with
            | Some a, Some b => String (ascii_of_nat (16 * a + b)) (unquote_to_bytes rest)
            | _, _ => String c (unquote_to_bytes s')
            end
        | _ => String c (unquote_to_bytes s')
        end
      else String c (unquote_to_bytes s')
  end.

(** [unquote]: a text without [%] is returned as it is; otherwise the
    escapes are resolved and the bytes decoded as UTF-8, ill-formed parts
    replaced. *)
Definition unquote (s : string) : string :=
  if PyStr.has_char "%" s then utf8_replace (unquote_to_bytes s) else s.

(** One [name_value] of the loop in [parse_qsl], with
    [keep_blank_values] and [strict_parsing] false. *)
Definition parse_field (name_value : string) : option (string * string) :=
  if negb (PyStr.truthy name_value) then None
  else match PyStr.split_first "=" name_value with
       | (_, None) => None
       | (n, Some v) =>
           if PyStr.truthy v
           then Some (unquote (PyStr.replace_char "+" " " n),
                      unquote (PyStr.replace_char "+" " " v))
           else None
       end.

(** [parse_qsl(qs)] with the default separator [&]. *)
Definition parse_qsl (qs : string) : list (string * string) :=
  omap parse_field (PyStr.split "&" qs).

(** The step of the loop of [parse_qs]: a name seen before gets one more
    value, a new name a one-element list. *)
Definition parse_qs_step (parsed_result : gmap string (list string))
    (nv : string * string) : gmap string (list string) :=
  let '(name, value) := nv in
  match parsed_result !! name with
  | Some values => <[name := values ++ [value]]> parsed_result
  | None => <[name := [value]]> parsed_result
  end.

(** [parse_qs(qs)]: a dict from names to the list of their values. *)
Definition parse_qs (qs : string) : gmap string (list string) :=
  fold_left parse_qs_step (parse_qsl qs) ∅.

End Url.

(** ** [extract_code_from_url] *)

Definition IndexError : exn := MkExn OtherException "list index out of range".

(** [params.get('code', [None])[0]] *)
Definition extract_code_from_url (url : string) : result (option string) :=
  match Url.urlparse url with
  | Raise e => Raise e
  | Ok parsed =>
      let params := Url.parse_qs (Url.query parsed) in
      match params !! "code" with
      | None => Ok None
      | Some (v :: _) => Ok (Some v)
      | Some [] => Raise IndexError
      end
  end.

(** ** Data model *)

(** A loaded record, the dict [{'url': .., 'name': .., 'code': ..}]. *)
Record ReferralRecord : Type := MkRecord {
  rec_url : string;
  rec_name : string;
  rec_code : string
}.

(** A checked record, the dict [{**data, 'status': status}]. *)
Record CheckOutcome : Type := MkOutcome {
  out_data : ReferralRecord;
  out_status : string
}.

(** ** [load_referral_data] *)

(** A row yielded by [csv.DictReader]: a dict whose values are strings,
    or [None] for a column the line is too short to fill. *)
Definition dict_get (row : gmap string (option string)) (k : string) : option string :=
  match row !! k with
  | Some v => v
  | None => None
  end.

(** [row.get(k, d)] *)
Definition dict_get_default (row : gmap string (option string)) (k d : string)
  : option string :=
  match row !! k with
  | Some v => v
  | None => Some d
  end.

Definition dict_empty (row : gmap string (option string)) : bool :=
  bool_decide (row = ∅).

Definition AttributeError : exn :=
  MkExn OtherException "'NoneType' object has no attribute 'strip'".

(** Lines 134-148.  [reader] is what iterating the [DictReader] gives:
    rows, up to a first exception if the file cannot be opened, decoded or
    parsed.  [if not x] on an optional string is the match on [None] and
    on the empty string. *)
Fixpoint load_rows (reader : list (result (gmap string (option string))))
    (referral_data : list ReferralRecord) : IO (result (list ReferralRecord)) :=
  match reader with
  | [] => ret (Ok referral_data)
  | Raise e :: _ => ret (Raise e)
  | Ok row :: rest =>
      if dict_empty row then load_rows rest referral_data
      else
        match dict_get row "link" with
        | Some (String _ _ as link) =>
            let url := PyStr.strip link in
            if negb (PyStr.truthy url) || negb (PyStr.startswith url "http")
            then load_rows rest referral_data
            else
              match extract_code_from_url url with
              | Raise e => ret (Raise e)
              | Ok (Some (String _ _ as code)) =>
                  match dict_get_default row "name" "Unknown" with
                  | None => ret (Raise AttributeError)
                  | Some n =>
                      let name :=
                        if PyStr.truthy (PyStr.strip n) then PyStr.strip n else "Unknown" in
                      load_rows rest (referral_data ++ [MkRecord url name code])
                  end
              | Ok _ =>
                  exec print ("Warning: Could not extract code from " +:+ url)
                  then load_rows rest referral_data
              end
        | _ => load_rows rest referral_data
        end
  end.

(** [load_referral_data]: [None] when reading raised. *)
Definition load_referral_data (reader : list (result (gmap string (option string))))
  : IO (option (list ReferralRecord)) :=
  let* r := load_rows reader [] in
  match r with
  | Ok referral_data => ret (Some referral_data)
  | Raise e =>
      exec print ("Error reading CSV file: " +:+ exn_str e) then ret None
  end.

(** ** Reporter *)

Fixpoint print_valid_codes (valid_codes : list CheckOutcome) : IO unit :=
  match valid_codes with
  | [] => ret tt
  | data :: rest =>
      exec print ("   Code: " +:+ rec_code (out_data data)) then
      exec print ("   URL:  " +:+ rec_url (out_data data) +:+ newline) then
      print_valid_codes rest
  end.

Definition print_results (valid_codes invalid_codes error_codes unknown_codes
    : list CheckOutcome) (total : nat) : IO unit :=
  exec print (newline +:+ PyStr.repeat_str "=" 60) then
  exec print "ANALYSIS RESULTS" then
  exec print (PyStr.repeat_str "=" 60) then
  exec print (newline +:+ "📊 SUMMARY:") then
  exec print ("   Valid (Unclaimed): " +:+ PyStr.str_of_nat (length valid_codes)) then
  exec print ("   Invalid (Claimed): " +:+ PyStr.str_of_nat (length invalid_codes)) then
  exec print ("   Errors: " +:+ PyStr.str_of_nat (length error_codes)) then
  exec print ("   Unknown: " +:+ PyStr.str_of_nat (length unknown_codes)) then
  exec print ("   Total: " +:+ PyStr.str_of_nat total) then
  match valid_codes with
  | [] => ret tt
  | _ =>
      exec print (newline +:+ "✅ VALID/UNCLAIMED CODES ("
                  +:+ PyStr.str_of_nat (length valid_codes) +:+ "):") then
      exec print (PyStr.repeat_str "-" 40) then
      print_valid_codes valid_codes
  end.

Fixpoint write_valid_codes (output_file : string) (valid_codes : list CheckOutcome)
  : IO unit :=
  match valid_codes with
  | [] => ret tt
  | data :: rest =>
      exec write output_file ("Code: " +:+ rec_code (out_data data) +:+ newline) then
      exec write output_file ("URL: " +:+ rec_url (out_data data) +:+ newline +:+ newline) then
      write_valid_codes output_file rest
  end.

Definition save_results (output_file : string) (valid_codes : list CheckOutcome)
    (total : nat) : IO unit :=
  exec open_w output_file then
  exec write output_file
    ("CURSOR REFERRAL CODE ANALYSIS RESULTS (SELENIUM)" +:+ newline) then
  exec write output_file (PyStr.repeat_str "=" 50 +:+ newline +:+ newline) then
  exec write output_file
    ("Total Codes Checked: " +:+ PyStr.str_of_nat total +:+ newline +:+ newline) then
  match valid_codes with
  | [] => ret tt
  | _ =>
      exec write output_file ("VALID/UNCLAIMED CODES:" +:+ newline) then
      exec write output_file (PyStr.repeat_str "-" 30 +:+ newline) then
      write_valid_codes output_file valid_codes
  end.

(** ** Runner *)

Definition initial_results : gmap string (list CheckOutcome) :=
  <["valid" := []]> (<["invalid" := []]> (<["error" := []]> (<["unknown" := []]> ∅))).

Definition status_icons : gmap string string :=
  <["valid" := "✅ VALID"]>
    (<["invalid" := "❌ Invalid/Claimed"]>
       (<["error" := "⚠️  Error"]>
          (<["unknown" := "❓ Unknown"]> ∅))).

Definition KeyError (key : string) : exn := MkExn OtherException ("'" +:+ key +:+ "'").

(** Lines 217-225.  [driver i] is the page the browser shows for a URL at
    the [i]-th check of the run; [total] is [len(referral_data)]. *)
Fixpoint check_all (driver : nat -> string -> page) (total i : nat)
    (todo : list ReferralRecord) (results : gmap string (list CheckOutcome))
  : IO (result (gmap string (list CheckOutcome))) :=
  match todo with
  | [] => ret (Ok results)
  | data :: rest =>
      let code := rec_code data in
      exec print_end ("Checking " +:+ PyStr.str_of_nat i +:+ "/"
                      +:+ PyStr.str_of_nat total +:+ ": " +:+ code) " ... " then
      let* status := check_referral_status (rec_url data) (driver i) in
      match results !! status with
      | None => ret (Raise (KeyError status))
      | Some outcomes =>
          let results := <[status := outcomes ++ [MkOutcome data status]]> results in
          exec print (default "❓ Unknown" (status_icons !! status)) then
          check_all driver total (S i) rest results
      end
  end.

(** [run_validation].  It returns nothing; the result here is [Ok] unless
    an exception of the check loop leaves the function.  An [OSError] of
    [open] in [save_results] is outside the model (see [open_w]). *)
Definition run_validation (reader : list (result (gmap string (option string))))
    (output_file : string) (driver : nat -> string -> page) : IO (result unit) :=
  let* loaded := load_referral_data reader in
  match loaded with
  | None | Some [] => ret (Ok tt)
  | Some referral_data =>
      let total := length referral_data in
      exec print ("Found " +:+ PyStr.str_of_nat total +:+ " referral codes to check...") then
      exec print ("Starting analysis..." +:+ newline) then
      let* checked := check_all driver total 1 referral_data initial_results in
      match checked with
      | Raise e => ret (Raise e)
      | Ok results =>
          exec print_results (results !!! "valid") (results !!! "invalid")
                 (results !!! "error") (results !!! "unknown") total then
          exec save_results output_file (results !!! "valid") total then
          exec print (newline +:+ "💾 Results saved to: " +:+ output_file) then
          ret (Ok tt)
      end
  end.

(** ** Vocabulary of the specification *)

(** [p] occurs in [s]: the meaning of "the text contains [p]". *)
Definition substring_of (p s : string) : Prop :=
  exists a b, s = a +:+ p +:+ b.

(** [p] occurs in [s] in some letter case. *)
Definition occurs_nocase (p s : string) : Prop :=
  exists a m b, s = a +:+ m +:+ b /\ PyStr.lower m = p.

(** The rendered text of a page before lower-casing: the body text, or
    the page source when the body cannot be read. *)
Definition rendered_text (p : page) : result string :=
  match body_text p with
  | Ok t => Ok t
  | Raise _ => page_source p
  end.

(** Step 1 of the decision procedure. *)
Definition valid_text (text : string) : Prop :=
  substring_of "credit" text /\ substring_of "$50" text.

(** Step 2 of the decision procedure. *)
Definition invalid_text (text : string) : Prop :=
  substring_of "invalid referral code" text
  \/ substring_of "this referral code is invalid" text
  \/ (substring_of "invalid" text /\ substring_of "referral" text
      /\ substring_of "code" text).

(** Step 3: the title can be read and holds both words. *)
Definition title_matches (p : page) : Prop :=
  exists t, title p = Ok t
            /\ substring_of "invalid" (PyStr.lower t)
            /\ substring_of "referral" (PyStr.lower t).

(** Step 4, on one lower-cased element text. *)
Definition heading_invalid (text : string) : Prop :=
  substring_of "invalid referral code" text.

Definition heading_valid (text : string) : Prop :=
  substring_of "credit" text
  /\ (substring_of "$50" text \/ substring_of "$20" text).

(** The lower-cased texts of the elements the scan gets to read, in
    document order: those before the first element whose text cannot be
    read; none when the element query itself fails. *)
Fixpoint readable (hs : list (result string)) : list string :=
  match hs with
  | Ok raw :: rest => PyStr.lower raw :: readable rest
  | _ => []
  end.

Definition scanned (p : page) : list string :=
  match headings p with
  | Ok hs => readable hs
  | Raise _ => []
  end.

(** The line logged for an exception that reaches the outer handler of
    [check_referral_status]. *)
Definition error_line (url : string) (e : exn) : string :=
  match exn_cls e with
  | TimeoutException => "Timeout loading " +:+ url
  | WebDriverException => "WebDriver error for " +:+ url +:+ ": " +:+ exn_str e
  | OtherException => "Unexpected error for " +:+ url +:+ ": " +:+ exn_str e
  end.

(** Neither the body text nor the page source can be read. *)
Definition text_unreadable (p : page) : Prop :=
  exists e0 e, body_text p = Raise e0 /\ page_source p = Raise e.

(** ** Sample pages and inputs *)

(** A page whose text and title say nothing and whose second heading
    announces the credit. *)
Definition page_with_credit_heading : page :=
  MkPage (Ok tt) (Ok "Welcome to Cursor") (Ok "") (Ok "Cursor")
         (Ok [Ok "Referral"; Ok "You both get $20 in Credit"; Ok "Invalid referral code"]).

(** A page that shows both the invalid-code phrase and the credit offer. *)
Definition page_invalid_with_offer : page :=
  MkPage (Ok tt) (Ok "Invalid referral code. New users get $50 in credit.")
         (Ok "") (Ok "Cursor") (Ok []).

(** A page that shows only the invalid-code phrase, in mixed case. *)
Definition page_invalid : page :=
  MkPage (Ok tt) (Ok "Sorry: Invalid Referral Code") (Ok "") (Ok "Cursor") (Ok []).

(** A page whose only message is a heading with both an invalid-code
    phrase and a $20 credit. *)
Definition page_heading_invalid_20 : page :=
  MkPage (Ok tt) (Ok "") (Ok "") (Ok "")
         (Ok [Ok "Invalid referral code - the $20 credit was claimed"]).

(** The browser dies after the navigation: neither the body nor the page
    source can be read. *)
Definition page_unreadable : page :=
  MkPage (Ok tt)
         (Raise (MkExn WebDriverException "no such window"))
         (Raise (MkExn WebDriverException "no such window"))
         (Ok "") (Ok []).

(** The navigation times out. *)
Definition page_timeout : page :=
  MkPage (Raise (MkExn TimeoutException "timeout")) (Ok "") (Ok "") (Ok "") (Ok []).

Definition empty_world : world := MkWorld [] ∅.

(** ** Vocabulary for the loader *)

(** The test the loader applies to a row's link (lines 135-140): the
    link is missing or empty, empty once trimmed, or the trimmed link does
    not begin with the four characters [http]. *)
Definition bad_link (row : gmap string (option string)) : bool :=
  match dict_get row "link" with
  | None => true
  | Some link =>
      negb (PyStr.truthy (PyStr.strip link))
      || negb (PyStr.startswith (PyStr.strip link) "http")
  end.

(** A link that starts with an http(s) scheme. *)
Definition starts_with_http_scheme (url : string) : bool :=
  PyStr.startswith url "http://" || PyStr.startswith url "https://".

(** The rows named by the specification: the link is missing, empty after
    trimming, or does not start with an http(s) scheme. *)
Definition link_not_http_scheme (row : gmap string (option string)) : bool :=
  match dict_get row "link" with
  | None => true
  | Some link =>
      negb (PyStr.truthy (PyStr.strip link))
      || negb (starts_with_http_scheme (PyStr.strip link))
  end.

Definition count_rows (f : gmap string (option string) -> bool)
    (reader : list (result (gmap string (option string)))) : nat :=
  length (List.filter (fun x => match x with Ok row => f row | Raise _ => false end)
            reader).

(** The [&]-separated fields of the query string of a URL. *)
Definition query_fields (url : string) : result (list string) :=
  match Url.urlsplit url with
  | Ok parsed => Ok (PyStr.split "&" (Url.query parsed))
  | Raise e => Raise e
  end.

(** The URL carries a [code=X] query parameter. *)
Definition carries_code (url X : string) : Prop :=
  exists fields, query_fields url = Ok fields /\ ("code=" +:+ X) ∈ fields.

(** [code=X] is a field of the query string and no field before it
    parses to the name [code]. *)
Definition first_code_field (url X : string) : Prop :=
  exists fs1 fs2,
    query_fields url = Ok (fs1 ++ ("code=" +:+ X) :: fs2)
    /\ forall f v, f ∈ fs1 -> Url.parse_field f <> Some ("code", v).

(** No field of the query string parses to the name [code]. *)
Definition no_code_field (url : string) : Prop :=
  exists fields,
    query_fields url = Ok fields
    /\ forall f v, f ∈ fields -> Url.parse_field f <> Some ("code", v).

(** The values a list of pairs gives for one name, in order. *)
Fixpoint values_of (k : string) (pairs : list (string * string)) : list string :=
  match pairs with
  | [] => []
  | (n, v) :: rest => if String.eqb n k then v :: values_of k rest else values_of k rest
  end.

(** What [print] appends to the console. *)
Definition printed (w : world) (line : string) : world :=
  {| console := console w ++ [line +:+ newline]; files := files w |}.

Definition row_of_link (link : string) : gmap string (option string) :=
  <["link" := Some link]> ∅.

(** The decoding [parse_qsl] applies to a name and to a value: [+] is a
    space, then [%XX] escapes are resolved. *)
Definition form_decode (s : string) : string :=
  Url.unquote (PyStr.replace_char "+" " " s).

(** Where a loaded record comes from. *)
Definition from_row (reader : list (result (gmap string (option string))))
    (r : ReferralRecord) : Prop :=
  exists row link,
    Ok row ∈ reader /\ dict_get row "link" = Some link
    /\ bad_link row = false /\ rec_url r = PyStr.strip link.

(** ** Sample rows *)

Definition sample_reader : list (result (gmap string (option string))) :=
  [ Ok (<["link" := Some " https://cursor.com/referral?code=ABC123&name=x "]>
          (<["name" := Some " Bob "]> ∅));
    Ok (row_of_link "ftp://cursor.com/referral?code=DEF456");
    Ok (row_of_link "https://cursor.com/referral?ref=GHI789") ].

Definition sample_data : list ReferralRecord :=
  [ MkRecord "https://cursor.com/referral?code=ABC123&name=x" "Bob" "ABC123" ].

(** ** Vocabulary for the runner and the reporter *)

Definition statuses : list string := ["valid"; "invalid"; "error"; "unknown"].

(** The status [check_referral_status] returns for a record checked at
    position [i]. *)
Definition status_at (driver : nat -> string -> page) (i : nat)
    (data : ReferralRecord) : string :=
  match classify_page (driver i (rec_url data)) with
  | Ok st => st
  | Raise _ => "error"
  end.

(** The outcomes of a run, in input order; the first record is checked at
    position [i]. *)
Fixpoint run_outcomes (driver : nat -> string -> page) (i : nat)
    (todo : list ReferralRecord) : list CheckOutcome :=
  match todo with
  | [] => []
  | data :: rest =>
      MkOutcome data (status_at driver i data) :: run_outcomes driver (S i) rest
  end.

(** The outcomes with a given status, in order. *)
Definition partition_of (s : string) (outcomes : list CheckOutcome) : list CheckOutcome :=
  List.filter (fun o => String.eqb (out_status o) s) outcomes.

(** The report: header banner, total-checked count and, when there are
    valid results, their listing. *)
Definition report_banner : string :=
  "CURSOR REFERRAL CODE ANALYSIS RESULTS (SELENIUM)" +:+ newline
  +:+ PyStr.repeat_str "=" 50 +:+ newline +:+ newline.

Definition report_total (total : nat) : string :=
  "Total Codes Checked: " +:+ PyStr.str_of_nat total +:+ newline +:+ newline.

Fixpoint report_entries (valid_codes : list CheckOutcome) : string :=
  match valid_codes with
  | [] => ""
  | data :: rest =>
      "Code: " +:+ rec_code (out_data data) +:+ newline
      +:+ "URL: " +:+ rec_url (out_data data) +:+ newline +:+ newline
      +:+ report_entries rest
  end.

Definition report_listing (valid_codes : list CheckOutcome) : string :=
  match valid_codes with
  | [] => ""
  | _ =>
      "VALID/UNCLAIMED CODES:" +:+ newline
      +:+ PyStr.repeat_str "-" 30 +:+ newline
      +:+ report_entries valid_codes
  end.

Definition report_text (valid_codes : list CheckOutcome) (total : nat) : string :=
  report_banner +:+ report_total total +:+ report_listing valid_codes.

(** A computation that writes to the console only. *)
Definition console_only {A : Type} (m : IO A) : Prop :=
  forall w, files (snd (m w)) = files w.

(** A driver for two checks: an offer, then a time-out. *)
Definition sample_driver (i : nat) (url : string) : page :=
  if (i =? 1)%nat
  then MkPage (Ok tt) (Ok "You both get $50 in credit") (Ok "") (Ok "Cursor") (Ok [])
  else page_timeout.

(** Two loaded records. *)
Definition two_records : list ReferralRecord :=
  [ MkRecord "https://cursor.com/referral?code=ABC123" "Bob" "ABC123";
    MkRecord "https://cursor.com/referral?code=DEF456" "Unknown" "DEF456" ].

Definition report_path : string := "data/referral_check_results.txt".

(** A world in which an earlier run checked five codes and found none
    valid. *)
Definition stale_world : world :=
  MkWorld [] (<[report_path := report_text [] 5]> ∅).

(** ** Vocabulary for the loader's records *)

(** The record the loader builds from a row that passes every test. *)
Definition built_from (row : gmap string (option string)) (r : ReferralRecord) : Prop :=
  exists link n,
    dict_get row "link" = Some link
    /\ bad_link row = false
    /\ rec_url r = PyStr.strip link
    /\ extract_code_from_url (rec_url r) = Ok (Some (rec_code r))
    /\ rec_code r <> ""
    /\ dict_get_default row "name" "Unknown" = Some n
    /\ rec_name r = (if PyStr.truthy (PyStr.strip n) then PyStr.strip n else "Unknown").

(** The rows a reader yields before its first exception. *)
Fixpoint rows_read (reader : list (result (gmap string (option string))))
  : list (gmap string (option string)) :=
  match reader with
  | Ok row :: rest => row :: rows_read rest
  | _ => []
  end.

(** The warning printed for a link without a code. *)
Definition warning_line (url : string) : string :=
  "Warning: Could not extract code from " +:+ url +:+ newline.

(** A row that passes the link test but yields no code. *)
Definition row_without_code (row : gmap string (option string)) : bool :=
  negb (bad_link row)
  && match dict_get row "link" with
     | Some link =>
         match extract_code_from_url (PyStr.strip link) with
         | Ok None => true
         | _ => false
         end
     | None => false
     end.

(** The trimmed link of a row. *)
Definition row_url (row : gmap string (option string)) : string :=
  PyStr.strip (default "" (dict_get row "link")).

(** What a complete pass of the loader leaves behind: the records, in the
    order of the rows they were built from, and the warnings, one for each
    row that passes the link test and has no code. *)
Definition load_trace (reader : list (result (gmap string (option string))))
    (w : world) (new : list ReferralRecord) (w' : world) : Prop :=
  exists rows',
    sublist rows' (rows_read reader)
    /\ Forall2 built_from rows' new
    /\ length (rows_read reader) = length reader
    /\ console w' =
         console w
         ++ map (fun row => warning_line (row_url row))
              (List.filter row_without_code (rows_read reader))
    /\ files w' = files w
    /\ length new + count_rows bad_link reader
       + count_rows row_without_code reader = length reader.

(** A row with a usable link whose name column was left unfilled. *)
Definition row_short : gmap string (option string) :=
  <["link" := Some "https://cursor.com/referral?code=JKL012"]> (<["name" := None]> ∅).

(** A reading failure. *)
Definition csv_error : exn := MkExn OtherException "line contains NUL".

(** ** Vocabulary for the further properties of the classifier *)

Definition map_result {A B : Type} (f : A -> B) (r : result A) : result B :=
  match r with
  | Ok a => Ok (f a)
  | Raise e => Raise e
  end.

(** The page with every text lower-cased; what raises still raises. *)
Definition lower_page (p : page) : page :=
  MkPage (nav p)
         (map_result PyStr.lower (body_text p))
         (map_result PyStr.lower (page_source p))
         (map_result PyStr.lower (title p))
         (map_result (map (map_result PyStr.lower)) (headings p)).

(** Two pages that differ in letter case only. *)
Definition page_offer_upper : page :=
  MkPage (Ok tt) (Ok "YOU BOTH GET $50 IN CREDIT") (Ok "") (Ok "CURSOR") (Ok [Ok "OFFER"]).

Definition page_offer_mixed : page :=
  MkPage (Ok tt) (Ok "You Both Get $50 in Credit") (Ok "") (Ok "Cursor") (Ok [Ok "Offer"]).

(** ** Vocabulary for the effects of a run *)

(** A computation that only adds to the console. *)
Definition console_grows {A : Type} (m : IO A) : Prop :=
  forall w, console w `prefix_of` console (snd (m w)).

(** The block of the report for one valid outcome. *)
Definition report_block (o : CheckOutcome) : string :=
  "Code: " +:+ rec_code (out_data o) +:+ newline
  +:+ "URL: " +:+ rec_url (out_data o) +:+ newline +:+ newline.

(** A world with an unrelated file. *)
Definition world_with_notes : world :=
  MkWorld ["$ python check_referrals.py" +:+ newline]
          (<["notes.txt" := "keep"]> (<[report_path := report_text [] 5]> ∅)).

(** ** Vocabulary for [urlsplit] *)

(** The netloc step of [urlsplit] on the text that follows the scheme. *)
Definition netloc_step (url : string) : result (string * string) :=
  match url with
  | String "/" (String "/" rest) =>
      let '(netloc, url') := Url.splitnetloc rest in
      match Url.check_netloc_brackets netloc with
      | Raise e => Raise e
      | Ok _ => Ok (netloc, url')
      end
  | _ => Ok (EmptyString, url)
  end.

(** The two console chunks [print_results] writes for a valid outcome. *)
Definition listing_chunks (o : CheckOutcome) : list string :=
  [ "   Code: " +:+ rec_code (out_data o) +:+ newline;
    "   URL:  " +:+ rec_url (out_data o) +:+ newline +:+ newline ].

(** ** Facts about the string primitives *)

Section StringFacts.

Lemma append_nil (b : string) : "" +:+ b = b.
Proof. reflexivity. Qed.

Lemma append_cons (x : ascii) (a b : string) :
  String x a +:+ b = String x (a +:+ b).
Proof. reflexivity. Qed.

Lemma append_assoc (a b c : string) : (a +:+ b) +:+ c = a +:+ b +:+ c.
Proof.
  induction a as [|x a IH]; [reflexivity|].
  now rewrite !append_cons, IH.
Qed.

Lemma append_empty_r (a : string) : a +:+ "" = a.
Proof.
  induction a as [|x a IH]; [reflexivity|].
  now rewrite append_cons, IH.
Qed.

Lemma append_eq_empty (a b : string) : a +:+ b = "" -> a = "" /\ b = "".
Proof. destruct a; [auto | rewrite append_cons; discriminate]. Qed.

Lemma startswith_spec (s p : string) :
  PyStr.startswith s p = true <-> exists b, s = p +:+ b.
Proof.
  revert s; induction p as [|x p IH]; intros s; simpl.
  - split; [intros _; now exists s | reflexivity].
  - destruct s as [|y s].
    + split; [discriminate | intros [b Hb]; rewrite append_cons in Hb; discriminate].
    + destruct (Ascii.eqb_spec x y) as [->|Hne].
      * rewrite IH. split; intros [b Hb]; exists b.
        -- now rewrite append_cons, Hb.
        -- rewrite append_cons in Hb. now injection Hb.
      * split; [discriminate|].
        intros [b Hb]. rewrite append_cons in Hb. injection Hb. congruence.
Qed.

Lemma isin_spec (p s : string) :
  PyStr.isin p s = true <-> substring_of p s.
Proof.
  induction s as [|c s IH]; simpl.
  - rewrite orb_false_r, startswith_spec. split.
    + intros [b Hb]. exists "", b. exact Hb.
    + intros (a & b & Hab). symmetry in Hab.
      apply append_eq_empty in Hab as [-> Hpb]. now exists b.
  - rewrite orb_true_iff, startswith_spec, IH. split.
    + intros [[b Hb] | (a & b & Hab)].
      * exists "", b. exact Hb.
      * exists (String c a), b. now rewrite append_cons, Hab.
    + intros (a & b & Hab). destruct a as [|x a].
      * left. now exists b.
      * right. exists a, b. rewrite append_cons in Hab. now injection Hab.
Qed.

Lemma isin_false (p s : string) :
  PyStr.isin p s = false <-> ~ substring_of p s.
Proof.
  rewrite <- isin_spec. destruct (PyStr.isin p s); intuition congruence.
Qed.

Lemma substring_of_trans (p q s : string) :
  substring_of p q -> substring_of q s -> substring_of p s.
Proof.
  intros (a & b & ->) (a' & b' & ->).
  exists (a' +:+ a), (b +:+ b'). now rewrite !append_assoc.
Qed.

Lemma isin_trans (p q s : string) :
  PyStr.isin p q = true -> PyStr.isin q s = true -> PyStr.isin p s = true.
Proof. rewrite !isin_spec. apply substring_of_trans. Qed.

Lemma lower_append (a b : string) :
  PyStr.lower (a +:+ b) = PyStr.lower a +:+ PyStr.lower b.
Proof.
  induction a as [|x a IH]; [reflexivity|].
  rewrite append_cons. simpl. now rewrite append_cons, IH.
Qed.

Lemma lower_split (s x y : string) :
  PyStr.lower s = x +:+ y ->
  exists x' y', s = x' +:+ y' /\ PyStr.lower x' = x /\ PyStr.lower y' = y.
Proof.
  revert s; induction x as [|c x IH]; intros s H.
  - exists "", s. auto.
  - rewrite append_cons in H.
    destruct s as [|d s]; simpl in H; [discriminate|].
    injection H as Hc Hs. destruct (IH _ Hs) as (x' & y' & -> & Hx & Hy).
    exists (String d x'), y'. rewrite append_cons. simpl. now rewrite Hc, Hx.
Qed.

(** Containment in the lower-cased text is occurrence in some case. *)
Lemma substring_lower (p s : string) :
  substring_of p (PyStr.lower s) <-> occurs_nocase p s.
Proof.
  split.
  - intros (a & b & H).
    apply lower_split in H as (a' & r & -> & Ha & Hr).
    apply lower_split in Hr as (m & b' & -> & Hm & Hb).
    now exists a', m, b'.
  - intros (a & m & b & -> & <-).
    exists (PyStr.lower a), (PyStr.lower b). now rewrite !lower_append.
Qed.

End StringFacts.

(** ** The text checks *)

(** C1. The primary valid check, [is_valid_code], accepts a text exactly
    when it contains both "credit" and "$50"; a text with "credit" but
    without "$50" is rejected; and the classifier answers valid for every
    page that loads with such a text. *)
Theorem primary_valid_check (text : string) :
  (is_valid_code text = true <->
     substring_of "credit" text /\ substring_of "$50" text)
  /\ (substring_of "credit" text -> ~ substring_of "$50" text ->
      is_valid_code text = false)
  /\ (forall p : page,
        nav p = Ok tt -> get_page_text p = Ok text ->
        substring_of "credit" text /\ substring_of "$50" text ->
        classify_page p = Ok "valid").
Proof.
  assert (Hiff : is_valid_code text = true <->
                 substring_of "credit" text /\ substring_of "$50" text).
  { unfold is_valid_code. cbn zeta.
    change ("$" +:+ PyStr.str_of_nat DOLLAR_AMOUNT) with "$50".
    now rewrite andb_true_iff, !isin_spec. }
  split; [exact Hiff | split].
  - intros _ Hno. apply not_true_is_false. intros E.
    apply Hiff in E. now elim Hno.
  - intros p Hnav Htext Hboth. apply Hiff in Hboth.
    unfold classify_page. now rewrite Hnav, Htext, Hboth.
Qed.

(** C10. [is_invalid_code] equals its last condition taken alone: the
    two listed phrases already contain "invalid", "referral" and "code". *)
Theorem invalid_check_is_loose_check (text : string) :
  is_invalid_code text = is_invalid_code_loose text
  /\ (is_invalid_code text = true <->
        substring_of "invalid" text /\ substring_of "referral" text
        /\ substring_of "code" text).
Proof.
  assert (Hphrase : forall phrase, In phrase invalid_phrases ->
            PyStr.isin phrase text = true -> is_invalid_code_loose text = true).
  { intros phrase Hin Hp. unfold is_invalid_code_loose.
    assert (Hw : forall w, PyStr.isin w phrase = true -> PyStr.isin w text = true)
      by (intros w Hw; exact (isin_trans _ _ _ Hw Hp)).
    simpl in Hin. destruct Hin as [<- | [<- | []]];
      rewrite !Hw by reflexivity; reflexivity. }
  assert (Heq : is_invalid_code text = is_invalid_code_loose text).
  { unfold is_invalid_code. fold (is_invalid_code_loose text).
    destruct (is_invalid_code_loose text) eqn:El; [apply orb_true_r|].
    rewrite orb_false_r. apply not_true_is_false. intros Hex.
    apply existsb_exists in Hex as (phrase & Hin & Hp).
    specialize (Hphrase phrase Hin Hp). congruence. }
  split; [exact Heq|].
  rewrite Heq. unfold is_invalid_code_loose.
  rewrite !andb_true_iff, !isin_spec. tauto.
Qed.

(** ** The classifier *)

Ltac isin_hyps :=
  repeat match goal with
    | H : PyStr.isin _ _ = true |- _ => apply isin_spec in H
    | H : PyStr.isin _ _ = false |- _ => apply isin_false in H
    end.

Section Classifier.

Lemma is_valid_code_spec (text : string) :
  is_valid_code text = true <-> valid_text text.
Proof.
  unfold is_valid_code, valid_text. cbn zeta.
  change ("$" +:+ PyStr.str_of_nat DOLLAR_AMOUNT) with "$50".
  now rewrite andb_true_iff, !isin_spec.
Qed.

Lemma is_invalid_code_spec (text : string) :
  is_invalid_code text = true <-> invalid_text text.
Proof.
  unfold is_invalid_code, invalid_text, invalid_phrases. simpl existsb.
  rewrite !orb_true_iff, !andb_true_iff, !isin_spec. intuition discriminate.
Qed.

Lemma title_check_cases (p : page) :
  (title_matches p /\ title_check p = Some "invalid")
  \/ (~ title_matches p /\ title_check p = None).
Proof.
  unfold title_check, title_matches. destruct (title p) as [t|e].
  - cbn zeta.
    destruct (PyStr.isin "invalid" (PyStr.lower t)) eqn:E1;
      destruct (PyStr.isin "referral" (PyStr.lower t)) eqn:E2; simpl;
      isin_hyps.
    + left. split; [now exists t | reflexivity].
    + right. split; [|reflexivity]. intros (t' & [= <-] & _ & H). auto.
    + right. split; [|reflexivity]. intros (t' & [= <-] & H & _). auto.
    + right. split; [|reflexivity]. intros (t' & [= <-] & H & _). auto.
  - right. split; [|reflexivity]. intros (t & Ht & _). discriminate.
Qed.

Lemma heading_verdict_cases (text : string) :
  (heading_invalid text /\ heading_verdict text = Some "invalid")
  \/ (~ heading_invalid text /\ heading_valid text
      /\ heading_verdict text = Some "valid")
  \/ (~ heading_invalid text /\ ~ heading_valid text
      /\ heading_verdict text = None).
Proof.
  unfold heading_verdict, heading_invalid, heading_valid.
  destruct (PyStr.isin "invalid referral code" text) eqn:E0.
  - left. split; [now apply isin_spec | reflexivity].
  - right. apply isin_false in E0.
    destruct (PyStr.isin "credit" text
              && (PyStr.isin "$50" text || PyStr.isin "$20" text)) eqn:E1.
    + left. rewrite andb_true_iff, orb_true_iff, !isin_spec in E1. tauto.
    + right. split; [exact E0 | split; [|reflexivity]].
      rewrite <- !isin_spec, <- orb_true_iff, <- andb_true_iff. congruence.
Qed.

Lemma heading_verdict_none (text : string) :
  heading_verdict text = None <-> ~ heading_invalid text /\ ~ heading_valid text.
Proof.
  destruct (heading_verdict_cases text) as [[H1 H2] | [(H1 & H2 & H3) | (H1 & H2 & H3)]];
    rewrite ?H2, ?H3; intuition discriminate.
Qed.

(** The scan returns the verdict of the first readable element that has
    one. *)
Lemma scan_headings_first (hs : list (result string)) (i : nat) (e v : string) :
  readable hs !! i = Some e ->
  (forall j e', j < i -> readable hs !! j = Some e' -> heading_verdict e' = None) ->
  heading_verdict e = Some v ->
  scan_headings hs = Ok (Some v).
Proof.
  revert i; induction hs as [|[raw|x] hs IH]; intros i Hi Hbefore Hv;
    simpl in Hi; try discriminate.
  destruct i as [|i]; simpl in *.
  - injection Hi as <-. now rewrite Hv.
  - rewrite (Hbefore 0 (PyStr.lower raw)) by (first [lia | reflexivity]).
    apply (IH i Hi); [|exact Hv].
    intros j e' Hj He'. apply (Hbefore (S j) e'); [lia | exact He'].
Qed.

Lemma scan_headings_found (hs : list (result string)) (v : string) :
  scan_headings hs = Ok (Some v) ->
  exists e, e ∈ readable hs /\ heading_verdict e = Some v.
Proof.
  induction hs as [|[raw|x] hs IH]; simpl; try discriminate.
  destruct (heading_verdict (PyStr.lower raw)) as [v'|] eqn:E.
  - intros [= <-]. exists (PyStr.lower raw). split; [left | exact E].
  - intros H. destruct (IH H) as (e & He & Hv).
    exists e. split; [now right | exact Hv].
Qed.

Lemma element_check_first (p : page) (i : nat) (e v : string) :
  scanned p !! i = Some e ->
  (forall j e', j < i -> scanned p !! j = Some e' -> heading_verdict e' = None) ->
  heading_verdict e = Some v ->
  element_check p = Some v.
Proof.
  unfold scanned, element_check. destruct (headings p) as [hs|x]; [|discriminate].
  intros Hi Hb Hv. now rewrite (scan_headings_first hs i e v Hi Hb Hv).
Qed.

Lemma element_check_found (p : page) (v : string) :
  element_check p = Some v ->
  exists e, e ∈ scanned p /\ heading_verdict e = Some v.
Proof.
  unfold scanned, element_check. destruct (headings p) as [hs|x]; [|discriminate].
  destruct (scan_headings hs) as [[v'|]|x] eqn:E; try discriminate.
  intros [= <-]. now apply scan_headings_found.
Qed.

Lemma scan_headings_silent (hs : list (result string)) :
  (forall v, scan_headings hs <> Ok (Some v)) <->
  (forall e, e ∈ readable hs -> heading_verdict e = None).
Proof.
  induction hs as [|[raw|x] hs IH]; simpl.
  - split; [intros _ e He; inversion He | intros _ v; discriminate].
  - destruct (heading_verdict (PyStr.lower raw)) as [v'|] eqn:E.
    + split.
      * intros H. now elim (H v').
      * intros H. rewrite (H (PyStr.lower raw)) in E by left. discriminate.
    + rewrite IH. split.
      * intros H e He. apply elem_of_cons in He as [-> | He]; auto.
      * intros H e He. apply H. now right.
  - split; [intros _ e He; inversion He | intros _ v; discriminate].
Qed.

Lemma element_check_none (p : page) :
  element_check p = None <->
  forall e, e ∈ scanned p -> heading_verdict e = None.
Proof.
  unfold scanned, element_check. destruct (headings p) as [hs|x].
  - rewrite <- scan_headings_silent.
    destruct (scan_headings hs) as [[v|]|x]; split; try congruence.
    intros H. now elim (H v).
  - split; [intros _ e He; inversion He | reflexivity].
Qed.

End Classifier.

Section ClassifierOrder.

Lemma heading_verdict_values (e v : string) :
  heading_verdict e = Some v -> v = "valid" \/ v = "invalid".
Proof.
  destruct (heading_verdict_cases e) as [[_ H] | [(_ & _ & H) | (_ & _ & H)]];
    rewrite H; intros [= <-]; auto.
Qed.

Lemma first_heading_decides (p : page) (i : nat) (e : string) :
  scanned p !! i = Some e ->
  (forall j e', j < i -> scanned p !! j = Some e' ->
                ~ heading_invalid e' /\ ~ heading_valid e') ->
  (heading_invalid e -> element_check p = Some "invalid")
  /\ (~ heading_invalid e -> heading_valid e -> element_check p = Some "valid").
Proof.
  intros Hi Hb.
  assert (Hb' : forall j e', j < i -> scanned p !! j = Some e' ->
                             heading_verdict e' = None).
  { intros j e' Hj He'. apply heading_verdict_none. eauto. }
  destruct (heading_verdict_cases e) as [[H1 H2] | [(H1 & H2 & H3) | (H1 & H2 & H3)]].
  - split; [intros _ | tauto]. exact (element_check_first p i e _ Hi Hb' H2).
  - split; [tauto | intros _ _]. exact (element_check_first p i e _ Hi Hb' H3).
  - tauto.
Qed.

Lemma classify_page_loaded (p : page) (text : string) :
  nav p = Ok tt -> get_page_text p = Ok text ->
  classify_page p =
    Ok (if is_valid_code text then "valid"
        else if is_invalid_code text then "invalid"
        else match title_check p with
             | Some verdict => verdict
             | None => default "unknown" (element_check p)
             end).
Proof.
  intros Hnav Htext. unfold classify_page. rewrite Hnav, Htext.
  destruct (is_valid_code text); [reflexivity|].
  destruct (is_invalid_code text); [reflexivity|].
  destruct (title_check p); [reflexivity|].
  now destruct (element_check p).
Qed.

End ClassifierOrder.

(** C3. On a page that loads, the classifier applies its checks in
    order and the first match decides: the primary valid check on the
    text, the invalid check on the text, the title fallback, then the
    scan of the elements in document order, where "invalid referral code"
    gives invalid and "credit" with "$50" or "$20" gives valid; it
    answers unknown exactly when none of them matched. *)
Theorem classifier_order (p : page) (text : string) :
  nav p = Ok tt -> get_page_text p = Ok text ->
  exists st, classify_page p = Ok st /\
    (valid_text text -> st = "valid") /\
    (~ valid_text text -> invalid_text text -> st = "invalid") /\
    (~ valid_text text -> ~ invalid_text text -> title_matches p ->
     st = "invalid") /\
    (~ valid_text text -> ~ invalid_text text -> ~ title_matches p ->
     forall i e, scanned p !! i = Some e ->
       (forall j e', j < i -> scanned p !! j = Some e' ->
                     ~ heading_invalid e' /\ ~ heading_valid e') ->
       (heading_invalid e -> st = "invalid")
       /\ (~ heading_invalid e -> heading_valid e -> st = "valid")) /\
    (st = "unknown" <->
       ~ valid_text text /\ ~ invalid_text text /\ ~ title_matches p /\
       forall e, e ∈ scanned p -> ~ heading_invalid e /\ ~ heading_valid e).
Proof.
  intros Hnav Htext. rewrite (classify_page_loaded p text Hnav Htext).
  eexists; split; [reflexivity|].
  destruct (is_valid_code text) eqn:Ev.
  { apply is_valid_code_spec in Ev. intuition discriminate. }
  assert (Hnv : ~ valid_text text)
    by (rewrite <- is_valid_code_spec; congruence).
  destruct (is_invalid_code text) eqn:Ei.
  { apply is_invalid_code_spec in Ei. intuition discriminate. }
  assert (Hni : ~ invalid_text text)
    by (rewrite <- is_invalid_code_spec; congruence).
  destruct (title_check_cases p) as [[Ht ->] | [Ht ->]].
  { intuition discriminate. }
  split; [tauto | split; [tauto | split; [tauto | split; [|split]]]].
  - intros _ _ _ i e Hi Hb.
    destruct (first_heading_decides p i e Hi Hb) as [Hinv Hval].
    split; [intros H; now rewrite (Hinv H) | intros H1 H2; now rewrite (Hval H1 H2)].
  - intros Hu. split; [exact Hnv | split; [exact Hni | split; [exact Ht|]]].
    destruct (element_check p) as [v|] eqn:Ee.
    + apply element_check_found in Ee as (e & _ & Hv).
      apply heading_verdict_values in Hv. simpl in Hu. destruct Hv; congruence.
    + intros e He. apply heading_verdict_none.
      now apply (proj1 (element_check_none p) Ee).
  - intros (_ & _ & _ & Hall).
    assert (He : element_check p = None).
    { apply element_check_none. intros e He. apply heading_verdict_none. auto. }
    now rewrite He.
Qed.

Lemma classifier_order_witness :
  exists st, classify_page page_with_credit_heading = Ok st /\ st = "valid".
Proof.
  destruct (classifier_order page_with_credit_heading "welcome to cursor"
              eq_refl eq_refl) as (st & Hst & _ & _ & _ & Hscan & _).
  exists st. split; [exact Hst|].
  assert (Hnv : ~ valid_text "welcome to cursor")
    by (rewrite <- is_valid_code_spec; vm_compute; discriminate).
  assert (Hni : ~ invalid_text "welcome to cursor")
    by (rewrite <- is_invalid_code_spec; vm_compute; discriminate).
  assert (Hnt : ~ title_matches page_with_credit_heading).
  { destruct (title_check_cases page_with_credit_heading) as [[_ H] | [H _]];
      [vm_compute in H; discriminate | exact H]. }
  destruct (Hscan Hnv Hni Hnt 1 "you both get $20 in credit" eq_refl) as [_ Hv].
  - intros j e' Hj He'. assert (j = 0) as -> by lia.
    injection He' as <-. apply heading_verdict_none. reflexivity.
  - apply Hv.
    + apply isin_false. reflexivity.
    + split; [|right]; apply isin_spec; reflexivity.
Defined.

(** ** [check_referral_status] *)

Section CheckStatus.

Lemma get_page_text_rendered (p : page) :
  get_page_text p =
    match rendered_text p with
    | Ok raw => Ok (PyStr.lower raw)
    | Raise e => Raise e
    end.
Proof.
  unfold get_page_text, rendered_text. now destruct (body_text p).
Qed.

(** The status returned depends on the page only. *)
Lemma check_referral_status_fst (url : string) (driver : string -> page) (w : world) :
  fst (check_referral_status url driver w) =
    match classify_page (driver url) with
    | Ok status => status
    | Raise _ => "error"
    end.
Proof.
  unfold check_referral_status.
  destruct (classify_page (driver url)) as [st|e]; [reflexivity|].
  now destruct (exn_cls e).
Qed.

Lemma check_referral_status_snd (url : string) (driver : string -> page) (w : world) :
  snd (check_referral_status url driver w) =
    match classify_page (driver url) with
    | Ok _ => w
    | Raise e =>
        {| console := console w ++ [error_line url e +:+ newline];
           files := files w |}
    end.
Proof.
  unfold check_referral_status, error_line.
  destruct (classify_page (driver url)) as [st|e]; [reflexivity|].
  now destruct (exn_cls e).
Qed.

Lemma classify_page_raise (p : page) (e : exn) :
  classify_page p = Raise e <->
  nav p = Raise e \/ (nav p = Ok tt /\ get_page_text p = Raise e).
Proof.
  unfold classify_page. destruct (nav p) as [[]|e'].
  - destruct (get_page_text p) as [text|e''].
    + destruct (is_valid_code text); [intuition discriminate|].
      destruct (is_invalid_code text); [intuition discriminate|].
      destruct (title_check p); [intuition discriminate|].
      destruct (element_check p); intuition discriminate.
    + intuition congruence.
  - intuition congruence.
Qed.

(** The heuristics answer valid, invalid or unknown, never error. *)
Lemma classify_page_values (p : page) (st : string) :
  classify_page p = Ok st ->
  st = "valid" \/ st = "invalid" \/ st = "unknown".
Proof.
  unfold classify_page. destruct (nav p) as [[]|e']; [|discriminate].
  destruct (get_page_text p) as [text|e'']; [|discriminate].
  destruct (is_valid_code text); [intros [= <-]; auto|].
  destruct (is_invalid_code text); [intros [= <-]; auto|].
  destruct (title_check_cases p) as [[_ ->] | [_ ->]]; [intros [= <-]; auto|].
  destruct (element_check p) as [v|] eqn:Ee; intros [= <-]; [|auto].
  apply element_check_found in Ee as (e & _ & Hv).
  apply heading_verdict_values in Hv. tauto.
Qed.

End CheckStatus.

(** C2, as amended.  A page that loads and whose rendered text shows
    "invalid referral code" in any letter case is classified invalid,
    provided the text does not show both "credit" and "$50": the primary
    valid check comes first. *)
Theorem invalid_phrase_classified_invalid
    (url : string) (driver : string -> page) (w : world) (raw : string) :
  nav (driver url) = Ok tt ->
  rendered_text (driver url) = Ok raw ->
  occurs_nocase "invalid referral code" raw ->
  ~ (occurs_nocase "credit" raw /\ occurs_nocase "$50" raw) ->
  fst (check_referral_status url driver w) = "invalid".
Proof.
  intros Hnav Hraw Hphrase Hnot.
  assert (Htext : get_page_text (driver url) = Ok (PyStr.lower raw))
    by (now rewrite get_page_text_rendered, Hraw).
  rewrite check_referral_status_fst, (classify_page_loaded _ _ Hnav Htext).
  assert (Hv : is_valid_code (PyStr.lower raw) = false).
  { apply not_true_is_false. rewrite is_valid_code_spec. unfold valid_text.
    now rewrite !substring_lower. }
  assert (Hi : is_invalid_code (PyStr.lower raw) = true).
  { apply is_invalid_code_spec. left. now apply substring_lower. }
  now rewrite Hv, Hi.
Qed.

Lemma invalid_phrase_classified_invalid_witness :
  fst (check_referral_status "https://cursor.com/referral?code=ABC123"
         (fun _ => page_invalid) empty_world) = "invalid".
Proof.
  apply (invalid_phrase_classified_invalid _ _ _ "Sorry: Invalid Referral Code").
  - reflexivity.
  - reflexivity.
  - apply substring_lower, isin_spec. reflexivity.
  - rewrite <- !substring_lower, <- !isin_spec. vm_compute. intros [H _]. discriminate.
Defined.

(** C2, as stated, fails: this page shows "invalid referral code" and is
    classified valid. *)
Lemma invalid_phrase_with_offer_is_valid :
  nav page_invalid_with_offer = Ok tt
  /\ rendered_text page_invalid_with_offer
     = Ok "Invalid referral code. New users get $50 in credit."
  /\ occurs_nocase "invalid referral code"
       "Invalid referral code. New users get $50 in credit."
  /\ fst (check_referral_status "https://cursor.com/referral?code=ABC123"
            (fun _ => page_invalid_with_offer) empty_world) = "valid"
  /\ fst (check_referral_status "https://cursor.com/referral?code=ABC123"
            (fun _ => page_invalid_with_offer) empty_world) <> "invalid".
Proof.
  split; [reflexivity | split; [reflexivity | split; [|split]]].
  - apply substring_lower, isin_spec. reflexivity.
  - reflexivity.
  - vm_compute. discriminate.
Qed.

(** C4, as amended.  "$20" is accepted only by the element scan: a text
    with "credit" and "$20" but no "$50" fails the primary valid check;
    an element text with "credit" and "$20" has the verdict valid provided
    it does not contain "invalid referral code", which is tested first;
    and such an element, when it is the first scanned element with a
    verdict on a page whose text and title matched nothing, makes the
    classifier answer valid. *)
Theorem twenty_dollars_only_in_element_scan (text : string) :
  substring_of "credit" text -> substring_of "$20" text ->
  (~ substring_of "$50" text -> is_valid_code text = false)
  /\ (~ substring_of "invalid referral code" text ->
      heading_verdict text = Some "valid"
      /\ forall (p : page) (page_text : string) (i : nat),
           nav p = Ok tt -> get_page_text p = Ok page_text ->
           ~ valid_text page_text -> ~ invalid_text page_text ->
           ~ title_matches p ->
           scanned p !! i = Some text ->
           (forall j e', j < i -> scanned p !! j = Some e' ->
                         ~ heading_invalid e' /\ ~ heading_valid e') ->
           classify_page p = Ok "valid").
Proof.
  intros Hcredit H20. split.
  - intros H50. apply not_true_is_false. rewrite is_valid_code_spec.
    unfold valid_text. tauto.
  - intros Hni.
    assert (Hv : heading_valid text) by (split; [exact Hcredit | now right]).
    split.
    + destruct (heading_verdict_cases text) as [[H _] | [(_ & _ & H) | (_ & H & _)]];
        [now elim Hni | exact H | now elim H].
    + intros p page_text i Hnav Htext Hnv Hnit Hnt Hi Hb.
      rewrite (classify_page_loaded p page_text Hnav Htext).
      rewrite <- is_valid_code_spec in Hnv. rewrite <- is_invalid_code_spec in Hnit.
      apply not_true_is_false in Hnv, Hnit. rewrite Hnv, Hnit.
      destruct (title_check_cases p) as [[Ht _] | [_ ->]]; [now elim Hnt|].
      destruct (first_heading_decides p i text Hi Hb) as [_ Hval].
      now rewrite (Hval Hni Hv).
Qed.

Lemma twenty_dollars_only_in_element_scan_witness :
  is_valid_code "you both get $20 in credit" = false
  /\ heading_verdict "you both get $20 in credit" = Some "valid"
  /\ classify_page page_with_credit_heading = Ok "valid".
Proof.
  assert (Hc : substring_of "credit" "you both get $20 in credit")
    by (apply isin_spec; reflexivity).
  assert (H20 : substring_of "$20" "you both get $20 in credit")
    by (apply isin_spec; reflexivity).
  destruct (twenty_dollars_only_in_element_scan _ Hc H20) as [H1 H2].
  split; [apply H1; apply isin_false; reflexivity|].
  destruct H2 as [H2 H3]; [apply isin_false; reflexivity|].
  split; [exact H2|].
  apply (H3 page_with_credit_heading "welcome to cursor" 1); try reflexivity.
  - rewrite <- is_valid_code_spec. vm_compute. discriminate.
  - rewrite <- is_invalid_code_spec. vm_compute. discriminate.
  - destruct (title_check_cases page_with_credit_heading) as [[_ H] | [H _]];
      [vm_compute in H; discriminate | exact H].
  - intros j e' Hj He'. assert (j = 0) as -> by lia.
    injection He' as <-. apply heading_verdict_none. reflexivity.
Defined.

(** C4, as stated, fails: this element text contains "credit" and "$20"
    and its verdict is invalid. *)
Lemma heading_with_twenty_dollars_invalid :
  substring_of "credit" "invalid referral code - the $20 credit was claimed"
  /\ substring_of "$20" "invalid referral code - the $20 credit was claimed"
  /\ scanned page_heading_invalid_20
     = ["invalid referral code - the $20 credit was claimed"]
  /\ heading_verdict "invalid referral code - the $20 credit was claimed"
     = Some "invalid"
  /\ classify_page page_heading_invalid_20 = Ok "invalid".
Proof.
  repeat split; try reflexivity; apply isin_spec; reflexivity.
Qed.

(** C8, as amended.  The status error arises exactly when the
    navigation fails or when, after a successful navigation, neither the
    body text nor the page source can be read.  On a navigation failure
    the record is classified error whatever the page holds and the
    specific error is logged; the heuristics never answer error; and when
    the navigation succeeds and the text can be read the status is valid,
    invalid or unknown and nothing is logged. *)
Theorem error_status_origin (url : string) (driver : string -> page) (w : world) :
  let p := driver url in
  let st := fst (check_referral_status url driver w) in
  let w' := snd (check_referral_status url driver w) in
  (forall e, nav p = Raise e ->
     st = "error"
     /\ w' = {| console := console w ++ [error_line url e +:+ newline];
                files := files w |})
  /\ (st = "error" <-> (exists e, nav p = Raise e) \/ (nav p = Ok tt /\ text_unreadable p))
  /\ (forall s, classify_page p = Ok s -> s <> "error" /\ st = s /\ w' = w)
  /\ (forall text, nav p = Ok tt -> get_page_text p = Ok text ->
        (st = "valid" \/ st = "invalid" \/ st = "unknown") /\ w' = w).
Proof.
  intros p st w'. subst st w'.
  rewrite check_referral_status_fst, check_referral_status_snd. fold p.
  assert (Hvalues : forall s, classify_page p = Ok s -> s <> "error").
  { intros s Hs. apply classify_page_values in Hs.
    destruct Hs as [-> | [-> | ->]]; discriminate. }
  split; [|split; [|split]].
  - intros e He.
    assert (Hc : classify_page p = Raise e) by (apply classify_page_raise; now left).
    now rewrite Hc.
  - destruct (classify_page p) as [s|e] eqn:Hc.
    + split.
      * intros ->. now elim (Hvalues "error").
      * intros [[e He] | [Hnav (e0 & e & Hb & Hs)]].
        -- assert (classify_page p = Raise e) by (apply classify_page_raise; now left).
           congruence.
        -- assert (classify_page p = Raise e).
           { apply classify_page_raise. right. split; [exact Hnav|].
             unfold get_page_text. now rewrite Hb, Hs. }
           congruence.
    + split; [intros _ | reflexivity].
      apply classify_page_raise in Hc as [Hn | [Hn Ht]]; [left; now exists e|].
      right. split; [exact Hn|]. unfold get_page_text in Ht.
      destruct (body_text p) as [t|e0] eqn:Hb; [discriminate|].
      destruct (page_source p) as [t|e1] eqn:Hs; [discriminate|].
      now exists e0, e1.
  - intros s Hs. rewrite Hs. auto.
  - intros text Hnav Htext.
    destruct (classify_page p) as [s|e] eqn:Hc.
    + split; [exact (classify_page_values p s Hc) | reflexivity].
    + apply classify_page_raise in Hc as [Hn | [_ Ht]]; congruence.
Qed.

(** A time-out: the record is classified error and the time-out is
    logged with the URL. *)
Lemma error_status_origin_witness :
  check_referral_status "https://cursor.com/referral?code=ABC123"
    (fun _ => page_timeout) empty_world
  = ("error",
     printed empty_world "Timeout loading https://cursor.com/referral?code=ABC123").
Proof.
  destruct (error_status_origin "https://cursor.com/referral?code=ABC123"
              (fun _ => page_timeout) empty_world) as [Hnav _].
  destruct (Hnav (MkExn TimeoutException "timeout") eq_refl) as [Hst Hw].
  rewrite (surjective_pairing (check_referral_status _ _ _)), Hst, Hw.
  reflexivity.
Defined.

(** C8, as stated, fails: the navigation succeeds and the status is
    error. *)
Lemma error_without_navigation_failure :
  nav page_unreadable = Ok tt
  /\ fst (check_referral_status "https://cursor.com/referral?code=ABC123"
            (fun _ => page_unreadable) empty_world) = "error".
Proof. split; reflexivity. Qed.

(** ** [urllib.parse] and [extract_code_from_url] *)

Section QueryString.

Lemma parse_qs_fold (pairs : list (string * string))
    (m : gmap string (list string)) (k : string) :
  fold_left Url.parse_qs_step pairs m !! k =
    match m !! k, values_of k pairs with
    | None, [] => None
    | None, vs => Some vs
    | Some old, vs => Some (old ++ vs)
    end.
Proof.
  revert m; induction pairs as [|[n v] pairs IH]; intros m; simpl.
  - destruct (m !! k) as [old|]; [now rewrite app_nil_r | reflexivity].
  - rewrite IH. destruct (String.eqb_spec n k) as [->|Hne].
    + destruct (m !! k) as [old|] eqn:Hk; rewrite lookup_insert_eq.
      * now rewrite <- app_assoc.
      * reflexivity.
    + destruct (m !! n) as [old|]; now rewrite lookup_insert_ne.
Qed.

Lemma parse_qs_lookup (qs k : string) :
  Url.parse_qs qs !! k =
    match values_of k (Url.parse_qsl qs) with
    | [] => None
    | vs => Some vs
    end.
Proof.
  unfold Url.parse_qs. rewrite parse_qs_fold, lookup_empty. reflexivity.
Qed.

Lemma values_of_app (k : string) (l1 l2 : list (string * string)) :
  values_of k (l1 ++ l2) = values_of k l1 ++ values_of k l2.
Proof.
  induction l1 as [|[n v] l1 IH]; simpl; [reflexivity|].
  destruct (String.eqb n k); simpl; now rewrite IH.
Qed.

Lemma values_of_none (k : string) (fs : list string) :
  (forall f v, f ∈ fs -> Url.parse_field f <> Some (k, v)) ->
  values_of k (omap Url.parse_field fs) = [].
Proof.
  induction fs as [|f fs IH]; intros H; simpl; [reflexivity|].
  destruct (Url.parse_field f) as [[n v]|] eqn:E; simpl.
  - destruct (String.eqb_spec n k) as [->|_].
    + elim (H f v); [left | exact E].
    + apply IH. intros f' v' Hf'. apply H. now right.
  - apply IH. intros f' v' Hf'. apply H. now right.
Qed.

Lemma unquote_no_percent (s : string) :
  PyStr.has_char "%" s = false -> Url.unquote s = s.
Proof. intros H. unfold Url.unquote. now rewrite H. Qed.

Lemma replace_char_absent (a b : ascii) (s : string) :
  PyStr.has_char a s = false -> PyStr.replace_char a b s = s.
Proof.
  induction s as [|c s IH]; intros H; [reflexivity|].
  cbn [PyStr.has_char] in H. cbn [PyStr.replace_char].
  rewrite (Ascii.eqb_sym c a).
  destruct (Ascii.eqb a c); [discriminate|].
  now rewrite IH.
Qed.

Lemma parse_field_code (X : string) :
  X <> "" -> Url.parse_field ("code=" +:+ X) = Some ("code", form_decode X).
Proof.
  intros HX. unfold Url.parse_field.
  rewrite !append_cons, append_nil. simpl.
  destruct X as [|c X]; [congruence | reflexivity].
Qed.

Lemma extract_code_first (url X : string) :
  first_code_field url X -> X <> "" ->
  extract_code_from_url url = Ok (Some (form_decode X)).
Proof.
  intros (fs1 & fs2 & Hq & Hfirst) HX.
  unfold extract_code_from_url, Url.urlparse. unfold query_fields in Hq.
  destruct (Url.urlsplit url) as [parsed|e]; [|discriminate].
  injection Hq as Hq. rewrite parse_qs_lookup. unfold Url.parse_qsl.
  rewrite Hq, omap_app, values_of_app, (values_of_none _ _ Hfirst).
  simpl. now rewrite (parse_field_code X HX).
Qed.

Lemma extract_code_none (url : string) :
  no_code_field url -> extract_code_from_url url = Ok None.
Proof.
  intros (fs & Hq & Hno).
  unfold extract_code_from_url, Url.urlparse. unfold query_fields in Hq.
  destruct (Url.urlsplit url) as [parsed|e]; [|discriminate].
  injection Hq as Hq. rewrite parse_qs_lookup. unfold Url.parse_qsl.
  now rewrite Hq, (values_of_none _ _ Hno).
Qed.

End QueryString.

(** ** The loader *)

Section Loader.

Lemma exec_print (A : Type) (line : string) (k : IO A) (w : world) :
  (exec print line then k) w = k (printed w line).
Proof. reflexivity. Qed.

Lemma dict_empty_get (row : gmap string (option string)) (k : string) :
  dict_empty row = true -> dict_get row k = None.
Proof.
  unfold dict_empty, dict_get. intros H. apply bool_decide_eq_true in H.
  subst row. now rewrite lookup_empty.
Qed.

Lemma count_rows_cons_le (f : gmap string (option string) -> bool)
    (x : result (gmap string (option string))) reader :
  count_rows f (x :: reader) <= S (count_rows f reader).
Proof.
  unfold count_rows. simpl. destruct x as [row|e]; [destruct (f row)|]; simpl; lia.
Qed.

Lemma count_rows_cons_good (f : gmap string (option string) -> bool)
    (row : gmap string (option string)) reader :
  f row = false -> count_rows f (Ok row :: reader) = count_rows f reader.
Proof. unfold count_rows. simpl. now intros ->. Qed.

Lemma from_row_cons x reader r : from_row reader r -> from_row (x :: reader) r.
Proof.
  intros (row & link & Hin & H). exists row, link. split; [now right | exact H].
Qed.

Lemma load_rows_grows (reader : list (result (gmap string (option string)))) :
  forall (acc : list ReferralRecord) (w : world) (data : list ReferralRecord),
    fst (load_rows reader acc w) = Ok data ->
    exists new,
      data = acc ++ new
      /\ length new + count_rows bad_link reader <= length reader
      /\ Forall (from_row reader) new.
Proof.
  induction reader as [|[row|e] rest IH]; intros acc w data H.
  - simpl in H. injection H as <-. exists []. rewrite app_nil_r.
    split; [reflexivity | split; [unfold count_rows; simpl; lia | constructor]].
  - assert (Hskip : forall w', fst (load_rows rest acc w') = Ok data ->
              exists new, data = acc ++ new
                /\ length new + count_rows bad_link (Ok row :: rest)
                   <= length (Ok row :: rest)
                /\ Forall (from_row (Ok row :: rest)) new).
    { intros w' H'. destruct (IH acc w' data H') as (new & -> & Hlen & Hfrom).
      exists new. split; [reflexivity|]. split.
      - pose proof (count_rows_cons_le bad_link (Ok row) rest). cbn [length]. lia.
      - eapply Forall_impl; [exact Hfrom|]. intros r. apply from_row_cons. }
    cbn [load_rows] in H.
    destruct (dict_empty row); [exact (Hskip w H)|].
    destruct (dict_get row "link") as [[|c link]|] eqn:Hlink;
      try exact (Hskip w H).
    set (url := PyStr.strip (String c link)) in *.
    destruct (negb (PyStr.truthy url) || negb (PyStr.startswith url "http")) eqn:Hhttp;
      [exact (Hskip w H)|].
    destruct (extract_code_from_url url) as [[[|c' code]|]|e] eqn:Hcode;
      try (rewrite exec_print in H; exact (Hskip _ H));
      [|unfold ret in H; simpl in H; discriminate].
    destruct (dict_get_default row "name" "Unknown") as [n|];
      [|unfold ret in H; simpl in H; discriminate].
    set (name := if PyStr.truthy (PyStr.strip n) then PyStr.strip n else "Unknown") in *.
    destruct (IH _ w data H) as (new & -> & Hlen & Hfrom).
    assert (Hgood : bad_link row = false)
      by (unfold bad_link; rewrite Hlink; exact Hhttp).
    exists (MkRecord url name (String c' code) :: new).
    split; [now rewrite <- app_assoc|]. split.
    + rewrite (count_rows_cons_good _ _ _ Hgood). cbn [length]. lia.
    + constructor.
      * exists row, (String c link). split; [left|]. auto.
      * eapply Forall_impl; [exact Hfrom|]. intros r. apply from_row_cons.
  - unfold load_rows, ret in H. simpl in H. discriminate.
Qed.

Lemma bad_link_false (row : gmap string (option string)) :
  bad_link row = false ->
  exists c link,
    dict_get row "link" = Some (String c link)
    /\ dict_empty row = false
    /\ negb (PyStr.truthy (PyStr.strip (String c link)))
       || negb (PyStr.startswith (PyStr.strip (String c link)) "http") = false.
Proof.
  unfold bad_link. intros H.
  destruct (dict_get row "link") as [[|c link]|] eqn:Hlink; try discriminate.
  exists c, link. split; [reflexivity | split; [|exact H]].
  destruct (dict_empty row) eqn:He; [|reflexivity].
  rewrite (dict_empty_get row "link" He) in Hlink. discriminate.
Qed.

(** A row that passes the link test and has no code: a warning, no
    record. *)
Lemma load_rows_no_code (row : gmap string (option string)) (link : string)
    (rest : list (result (gmap string (option string))))
    (acc : list ReferralRecord) (w : world) :
  dict_get row "link" = Some link ->
  bad_link row = false ->
  no_code_field (PyStr.strip link) ->
  load_rows (Ok row :: rest) acc w =
    load_rows rest acc
      (printed w ("Warning: Could not extract code from " +:+ PyStr.strip link)).
Proof.
  intros Hlink Hgood Hno.
  destruct (bad_link_false row Hgood) as (c & l & Hl & He & Hhttp).
  rewrite Hlink in Hl. injection Hl as ->.
  cbn [load_rows]. rewrite He, Hlink, Hhttp, (extract_code_none _ Hno).
  apply exec_print.
Qed.

Lemma load_referral_data_some (reader : list (result (gmap string (option string))))
    (w : world) (data : list ReferralRecord) :
  fst (load_referral_data reader w) = Some data <->
  fst (load_rows reader [] w) = Ok data.
Proof.
  unfold load_referral_data, bind.
  destruct (load_rows reader [] w) as [[d|e] w']; simpl; intuition congruence.
Qed.

End Loader.

(** C5, as amended.  When the loader returns a sequence, every record in
    it comes from a row whose link is present, non-empty once trimmed and
    begins with the characters "http"; rows whose link is missing, empty
    after trimming, or does not begin with "http" are excluded, so
    whenever such a row exists the output is strictly shorter than the raw
    row count. *)
Theorem loader_excludes_bad_links
    (reader : list (result (gmap string (option string))))
    (w : world) (data : list ReferralRecord) :
  fst (load_referral_data reader w) = Some data ->
  Forall (from_row reader) data
  /\ length data + count_rows bad_link reader <= length reader
  /\ ((exists row, Ok row ∈ reader /\ bad_link row = true) ->
      length data < length reader).
Proof.
  intros H. apply load_referral_data_some in H.
  destruct (load_rows_grows reader [] w data H) as (new & -> & Hlen & Hfrom).
  simpl. split; [exact Hfrom | split; [exact Hlen|]].
  intros (row & Hin & Hbad).
  assert (0 < count_rows bad_link reader); [|lia].
  unfold count_rows.
  assert (Hf : In (Ok row) (List.filter
             (fun x => match x with Ok row => bad_link row | Raise _ => false end)
             reader)).
  { apply filter_In. split; [now apply list_elem_of_In | exact Hbad]. }
  destruct (List.filter _ reader); [destruct Hf | simpl; lia].
Qed.

Lemma loader_excludes_bad_links_witness :
  length sample_data < length sample_reader.
Proof.
  assert (Hload : fst (load_referral_data sample_reader empty_world) = Some sample_data)
    by (vm_compute; reflexivity).
  destruct (loader_excludes_bad_links sample_reader empty_world sample_data Hload)
    as (_ & _ & Hlt).
  apply Hlt. exists (row_of_link "ftp://cursor.com/referral?code=DEF456").
  split; [right; left | vm_compute; reflexivity].
Defined.

(** C5, as stated, fails: this link does not start with an http(s)
    scheme, and the loader keeps its row. *)
Lemma loader_keeps_link_without_scheme :
  link_not_http_scheme (row_of_link "httpbin.org/anything?code=ABC123") = true
  /\ fst (load_referral_data [Ok (row_of_link "httpbin.org/anything?code=ABC123")]
            empty_world)
     = Some [MkRecord "httpbin.org/anything?code=ABC123" "Unknown" "ABC123"]
  /\ ~ (length [MkRecord "httpbin.org/anything?code=ABC123" "Unknown" "ABC123"]
        < length [Ok (row_of_link "httpbin.org/anything?code=ABC123")]).
Proof.
  split; [vm_compute; reflexivity | split; [vm_compute; reflexivity | simpl; lia]].
Qed.

(** C6, as amended.  Let [urlsplit] accept the URL and give the query
    string [query parsed].  When [code=X] is one of the [&]-separated fields
    of that query string, [X] is not empty and no earlier field parses to
    the name "code", [extract_code_from_url] returns [X] with [+] read as a
    space and [%XX] escapes decoded: exactly [X] when [X] has neither.  A
    row whose link passes the loader's test, whose URL [urlsplit] accepts
    and whose query string has no field that parses to the name "code" adds
    no record and prints a warning. *)
Theorem extract_code_and_missing_code :
  (forall (url X : string) (parsed : Url.SplitResult) (fs1 fs2 : list string),
      Url.urlsplit url = Ok parsed ->
      PyStr.split "&" (Url.query parsed) = fs1 ++ ("code=" +:+ X) :: fs2 ->
      (forall f v, f ∈ fs1 -> Url.parse_field f <> Some ("code", v)) ->
      X <> "" ->
      extract_code_from_url url = Ok (Some (form_decode X))
      /\ (PyStr.has_char "%" X = false -> PyStr.has_char "+" X = false ->
          extract_code_from_url url = Ok (Some X)))
  /\ (forall (row : gmap string (option string)) (link : string)
        (parsed : Url.SplitResult)
        (rest : list (result (gmap string (option string))))
        (acc : list ReferralRecord) (w : world),
        dict_get row "link" = Some link ->
        bad_link row = false ->
        Url.urlsplit (PyStr.strip link) = Ok parsed ->
        (forall f v, f ∈ PyStr.split "&" (Url.query parsed) ->
                     Url.parse_field f <> Some ("code", v)) ->
        load_rows (Ok row :: rest) acc w =
          load_rows rest acc
            (printed w ("Warning: Could not extract code from " +:+ PyStr.strip link))).
Proof.
  split.
  - intros url X parsed fs1 fs2 Hsplit Hq Hfirst HX.
    assert (H : extract_code_from_url url = Ok (Some (form_decode X))).
    { apply extract_code_first; [|exact HX].
      exists fs1, fs2. split; [|exact Hfirst].
      unfold query_fields. now rewrite Hsplit, Hq. }
    split; [exact H|].
    intros Hp Hplus. rewrite H. unfold form_decode.
    now rewrite (replace_char_absent _ _ _ Hplus), (unquote_no_percent _ Hp).
  - intros row link parsed rest acc w Hlink Hgood Hsplit Hno.
    apply load_rows_no_code; [exact Hlink | exact Hgood |].
    exists (PyStr.split "&" (Url.query parsed)). split; [|exact Hno].
    unfold query_fields. now rewrite Hsplit.
Qed.

Lemma extract_code_and_missing_code_witness :
  extract_code_from_url "https://cursor.com/referral?code=ABC123&name=x"
  = Ok (Some "ABC123")
  /\ load_referral_data [Ok (row_of_link "https://cursor.com/referral?ref=GHI789")]
       empty_world
     = (Some [],
        printed empty_world
          "Warning: Could not extract code from https://cursor.com/referral?ref=GHI789").
Proof.
  destruct extract_code_and_missing_code as [Hcode Hmissing]. split.
  - apply (Hcode "https://cursor.com/referral?code=ABC123&name=x" "ABC123"
             (Url.MkSplit "https" "cursor.com" "/referral" "code=ABC123&name=x" "")
             [] ["name=x"]);
      try reflexivity; [|discriminate].
    intros f v Hf. inversion Hf.
  - unfold load_referral_data, bind.
    rewrite (Hmissing (row_of_link "https://cursor.com/referral?ref=GHI789")
               "https://cursor.com/referral?ref=GHI789"
               (Url.MkSplit "https" "cursor.com" "/referral" "ref=GHI789" "")
               [] [] empty_world);
      [reflexivity | reflexivity | reflexivity | reflexivity |].
    intros f v Hf. apply list_elem_of_singleton in Hf as ->. vm_compute. discriminate.
Defined.

(** C6, as stated, fails: this URL carries [code=XYZ789] and the code
    extracted is another one. *)
Lemma extract_code_takes_first_code :
  carries_code "https://cursor.com/referral?code=ABC123&code=XYZ789" "XYZ789"
  /\ extract_code_from_url "https://cursor.com/referral?code=ABC123&code=XYZ789"
     = Ok (Some "ABC123")
  /\ extract_code_from_url "https://cursor.com/referral?code=ABC123&code=XYZ789"
     <> Ok (Some "XYZ789").
Proof.
  split; [|split; [reflexivity | vm_compute; discriminate]].
  exists ["code=ABC123"; "code=XYZ789"]. split; [reflexivity|]. right. left.
Qed.

(** Two more URLs that carry a [code=X] parameter without [X] being what
    is extracted: an escaped value and an empty one. *)
Example extract_code_decodes :
  carries_code "https://cursor.com/referral?code=AB%2BC+1" "AB%2BC+1"
  /\ extract_code_from_url "https://cursor.com/referral?code=AB%2BC+1"
     = Ok (Some "AB+C 1").
Proof.
  split; [|reflexivity]. exists ["code=AB%2BC+1"]. split; [reflexivity | left].
Qed.

(** An escape that is not UTF-8 is decoded to U+FFFD, here in its UTF-8
    encoding. *)
Example extract_code_ill_formed_escape :
  extract_code_from_url "https://cursor.com/referral?code=%FF"
  = Ok (Some Url.replacement)
  /\ form_decode "%FF" = Url.replacement.
Proof. split; vm_compute; reflexivity. Qed.

(** URLs that [urlsplit] rejects: the text has a [code=X] field, and
    [extract_code_from_url] raises. *)
Example extract_code_rejected_urls :
  extract_code_from_url "http://[cursor.com/referral?code=ABC123"
  = Raise (Url.ValueError "Invalid IPv6 URL")
  /\ extract_code_from_url "http://[abc]/?code=X"
     = Raise (Url.ValueError "'abc' does not appear to be an IPv4 or IPv6 address")
  /\ extract_code_from_url "http://[]/?code=X"
     = Raise (Url.ValueError "'' does not appear to be an IPv4 or IPv6 address")
  /\ (exists e, extract_code_from_url "http://a]b[/?code=X" = Raise e)
  /\ extract_code_from_url "http://[::1]/?code=X" = Ok (Some "X").
Proof.
  repeat split; try (vm_compute; reflexivity).
  eexists. vm_compute. reflexivity.
Qed.

Example extract_code_blank :
  carries_code "https://cursor.com/referral?code=" ""
  /\ extract_code_from_url "https://cursor.com/referral?code=" = Ok None.
Proof.
  split; [|reflexivity]. exists ["code="]. split; [reflexivity | left].
Qed.

(** ** The runner *)

Section Runner.

(** The browser of the run: [driver i] answers the [i]-th check. *)
Variable driver : nat -> string -> page.

Lemma bind_run {A B : Type} (m : IO A) (k : A -> IO B) (w : world) :
  bind m k w = k (fst (m w)) (snd (m w)).
Proof. unfold bind. now destruct (m w). Qed.

Lemma console_only_ret {A : Type} (a : A) : console_only (ret a).
Proof. intros w. reflexivity. Qed.

Lemma console_only_print_end (s e : string) : console_only (print_end s e).
Proof. intros w. reflexivity. Qed.

Lemma console_only_print (s : string) : console_only (print s).
Proof. intros w. reflexivity. Qed.

Lemma console_only_bind {A B : Type} (m : IO A) (k : A -> IO B) :
  console_only m -> (forall a, console_only (k a)) -> console_only (bind m k).
Proof.
  intros Hm Hk w. rewrite bind_run. now rewrite Hk, Hm.
Qed.

Lemma console_only_check_referral_status (url : string) (d : string -> page) :
  console_only (check_referral_status url d).
Proof.
  intros w. rewrite check_referral_status_snd.
  now destruct (classify_page (d url)).
Qed.

Lemma status_at_values (i : nat) (data : ReferralRecord) :
  status_at driver i data ∈ statuses.
Proof.
  unfold status_at, statuses.
  destruct (classify_page _) as [st|e] eqn:Hc.
  - apply classify_page_values in Hc as [-> | [-> | ->]]; set_solver.
  - set_solver.
Qed.

Lemma partition_of_cons (s : string) (o : CheckOutcome) (l : list CheckOutcome) :
  partition_of s (o :: l) =
    if String.eqb (out_status o) s then o :: partition_of s l else partition_of s l.
Proof. reflexivity. Qed.

(** The loop ends without an exception and appends to each partition
    the outcomes that carry its status. *)
Lemma check_all_spec (total : nat) (todo : list ReferralRecord) :
  forall (i : nat) (results : gmap string (list CheckOutcome)) (w : world),
    (forall s, s ∈ statuses -> is_Some (results !! s)) ->
    exists results',
      fst (check_all driver total i todo results w) = Ok results'
      /\ files (snd (check_all driver total i todo results w)) = files w
      /\ forall s, results' !! s =
           (fun l => l ++ partition_of s (run_outcomes driver i todo))
             <$> results !! s.
Proof.
  induction todo as [|data rest IH]; intros i results w Hkeys.
  - exists results. split; [reflexivity | split; [reflexivity|]].
    intros s. simpl. destruct (results !! s); simpl; [now rewrite app_nil_r | reflexivity].
  - cbn [check_all]. rewrite !bind_run.
    set (w1 := snd (print_end _ _ w)).
    rewrite check_referral_status_fst. fold (status_at driver i data).
    set (st := status_at driver i data).
    destruct (Hkeys st (status_at_values i data)) as [outcomes Hout].
    rewrite Hout, bind_run.
    set (w2 := snd (print _ _)).
    set (results1 := <[st := outcomes ++ [MkOutcome data st]]> results).
    destruct (IH (S i) results1 w2) as (results' & Hres & Hfiles & Hlook).
    { intros s Hs. unfold results1. rewrite lookup_insert_is_Some'. right. auto. }
    exists results'. split; [exact Hres | split].
    + rewrite Hfiles. unfold w2. rewrite console_only_print.
      rewrite console_only_check_referral_status. reflexivity.
    + intros s. rewrite Hlook. unfold results1.
      cbn [run_outcomes]. rewrite partition_of_cons. cbn [out_status]. fold st.
      destruct (String.eqb_spec st s) as [<-|Hne].
      * rewrite lookup_insert_eq, Hout. simpl. now rewrite <- app_assoc.
      * now rewrite lookup_insert_ne.
Qed.

Lemma partition_of_status (s : string) (outcomes : list CheckOutcome) (o : CheckOutcome) :
  o ∈ partition_of s outcomes -> out_status o = s /\ o ∈ outcomes.
Proof.
  unfold partition_of. rewrite !list_elem_of_In, filter_In.
  intros [Hin Heq]. split; [now apply String.eqb_eq | exact Hin].
Qed.

(** The four partitions together hold every outcome once. *)
Lemma partitions_permutation (outcomes : list CheckOutcome) :
  Forall (fun o => out_status o ∈ statuses) outcomes ->
  Permutation
    (partition_of "valid" outcomes ++ partition_of "invalid" outcomes
     ++ partition_of "error" outcomes ++ partition_of "unknown" outcomes)
    outcomes.
Proof.
  induction 1 as [|o l Ho _ IH]; [constructor|].
  rewrite !partition_of_cons.
  unfold statuses in Ho. rewrite !elem_of_cons in Ho.
  destruct Ho as [-> | [-> | [-> | [-> | Ho]]]]; [| | | | inversion Ho];
    cbn [String.eqb Ascii.eqb Bool.eqb].
  - now constructor.
  - symmetry. apply Permutation_cons_app. now symmetry.
  - symmetry. rewrite app_assoc. apply Permutation_cons_app.
    rewrite <- app_assoc. now symmetry.
  - symmetry. rewrite !app_assoc. apply Permutation_cons_app.
    rewrite <- !app_assoc. now symmetry.
Qed.

Lemma run_outcomes_statuses (i : nat) (todo : list ReferralRecord) :
  Forall (fun o => out_status o ∈ statuses) (run_outcomes driver i todo).
Proof.
  revert i; induction todo as [|d rest IH]; intros i; simpl; constructor.
  - apply status_at_values.
  - apply IH.
Qed.

Lemma run_outcomes_data (i : nat) (todo : list ReferralRecord) :
  map out_data (run_outcomes driver i todo) = todo.
Proof.
  revert i; induction todo as [|d rest IH]; intros i; simpl; [reflexivity|].
  now rewrite IH.
Qed.

Lemma initial_results_keys (s : string) :
  s ∈ statuses -> initial_results !! s = Some [].
Proof.
  unfold statuses. rewrite !elem_of_cons.
  intros [-> | [-> | [-> | [-> | H]]]]; [reflexivity.. | inversion H].
Qed.

Lemma initial_results_other (s : string) :
  s ∉ statuses -> initial_results !! s = None.
Proof.
  unfold statuses, initial_results. rewrite !not_elem_of_cons.
  intros (H1 & H2 & H3 & H4 & _).
  rewrite !lookup_insert_ne by congruence. apply lookup_empty.
Qed.

(** The partitions after the loop of [run_validation]. *)
Lemma check_all_partitions (total : nat) (todo : list ReferralRecord) (w : world) :
  exists results,
    fst (check_all driver total 1 todo initial_results w) = Ok results
    /\ files (snd (check_all driver total 1 todo initial_results w)) = files w
    /\ (forall s, s ∈ statuses ->
          results !!! s = partition_of s (run_outcomes driver 1 todo))
    /\ (forall s, s ∉ statuses -> results !! s = None).
Proof.
  destruct (check_all_spec total todo 1 initial_results w)
    as (results & Hres & Hfiles & Hlook).
  { intros s Hs. rewrite (initial_results_keys s Hs). eauto. }
  exists results. split; [exact Hres | split; [exact Hfiles | split]].
  - intros s Hs. rewrite lookup_total_alt, Hlook, (initial_results_keys s Hs).
    reflexivity.
  - intros s Hs. now rewrite Hlook, (initial_results_other s Hs).
Qed.

End Runner.

(** C7. The loop of a run ends with a result in which every outcome lies
    in the partition named by its status, one of valid, invalid, error and
    unknown; the four partitions together hold each loaded record once;
    and their sizes add up to the number of records processed. *)
Theorem run_results_partition (driver : nat -> string -> page)
    (referral_data : list ReferralRecord) (w : world) :
  exists results,
    fst (check_all driver (length referral_data) 1 referral_data initial_results w)
    = Ok results
    /\ (forall s o, o ∈ (results !!! s : list CheckOutcome) ->
          out_status o = s /\ s ∈ statuses)
    /\ Permutation
         (map out_data (results !!! "valid" ++ results !!! "invalid"
                        ++ results !!! "error" ++ results !!! "unknown"))
         referral_data
    /\ length (results !!! "valid" : list CheckOutcome)
       + length (results !!! "invalid" : list CheckOutcome)
       + length (results !!! "error" : list CheckOutcome)
       + length (results !!! "unknown" : list CheckOutcome)
       = length referral_data.
Proof.
  destruct (check_all_partitions driver (length referral_data) referral_data w)
    as (results & Hres & _ & Hin & Hout).
  exists results. split; [exact Hres|].
  assert (Hperm : Permutation
            (map out_data (results !!! "valid" ++ results !!! "invalid"
                           ++ results !!! "error" ++ results !!! "unknown"))
            referral_data).
  { rewrite !Hin by (unfold statuses; set_solver).
    rewrite <- (run_outcomes_data driver 1 referral_data) at 5.
    apply Permutation_map, partitions_permutation, run_outcomes_statuses. }
  split; [|split; [exact Hperm|]].
  - intros s o Ho. destruct (decide (s ∈ statuses)) as [Hs|Hs].
    + rewrite (Hin s Hs) in Ho. apply partition_of_status in Ho as [Hst _]. auto.
    + rewrite lookup_total_alt, (Hout s Hs) in Ho. inversion Ho.
  - apply Permutation_length in Hperm.
    rewrite length_map, !length_app in Hperm. lia.
Qed.

(** A run over two records: the first page shows the offer, the second
    navigation times out. *)
Example run_two_records :
  exists results,
    fst (check_all sample_driver 2 1 two_records initial_results empty_world)
    = Ok results
    /\ results !!! "valid"
       = [MkOutcome (MkRecord "https://cursor.com/referral?code=ABC123" "Bob" "ABC123")
            "valid"]
    /\ results !!! "invalid" = []
    /\ results !!! "error"
       = [MkOutcome (MkRecord "https://cursor.com/referral?code=DEF456" "Unknown" "DEF456")
            "error"]
    /\ results !!! "unknown" = [].
Proof.
  destruct (check_all_partitions sample_driver 2 two_records empty_world)
    as (results & Hres & _ & Hin & _).
  exists results. split; [exact Hres|].
  rewrite !Hin by (unfold statuses; set_solver).
  repeat split; vm_compute; reflexivity.
Qed.

(** ** The reporter and [run_validation] *)

Section Reporter.

Lemma console_only_print_valid_codes (valid_codes : list CheckOutcome) :
  console_only (print_valid_codes valid_codes).
Proof.
  induction valid_codes as [|o l IH]; [apply console_only_ret|].
  cbn [print_valid_codes].
  repeat (apply console_only_bind; [apply console_only_print | intros _]).
  exact IH.
Qed.

Lemma console_only_print_results valid_codes invalid_codes error_codes
    unknown_codes total :
  console_only
    (print_results valid_codes invalid_codes error_codes unknown_codes total).
Proof.
  unfold print_results.
  repeat (apply console_only_bind; [apply console_only_print | intros _]).
  destruct valid_codes; [apply console_only_ret|].
  repeat (apply console_only_bind; [apply console_only_print | intros _]).
  apply console_only_print_valid_codes.
Qed.

Lemma console_only_load_rows reader :
  forall acc, console_only (load_rows reader acc).
Proof.
  induction reader as [|[row|e] rest IH]; intros acc w; [reflexivity | | reflexivity].
  cbn [load_rows].
  destruct (dict_empty row); [apply IH|].
  destruct (dict_get row "link") as [[|c link]|]; try apply IH.
  destruct (negb _ || negb _); [apply IH|].
  destruct (extract_code_from_url _) as [[[|c' code]|]|e];
    try (rewrite exec_print, IH; reflexivity); [|reflexivity].
  destruct (dict_get_default row "name" "Unknown"); [apply IH | reflexivity].
Qed.

Lemma console_only_load_referral_data reader :
  console_only (load_referral_data reader).
Proof.
  unfold load_referral_data. apply console_only_bind.
  - apply console_only_load_rows.
  - intros [data|e]; [apply console_only_ret|].
    apply console_only_bind; [apply console_only_print | intros _].
    apply console_only_ret.
Qed.

(** A write to a file whose content is known. *)
Lemma write_known (path s content : string) (out : list string)
    (m : gmap string string) :
  write path s {| console := out; files := <[path := content]> m |}
  = (tt, {| console := out; files := <[path := content +:+ s]> m |}).
Proof. unfold write. simpl. now rewrite alter_insert_eq. Qed.

Lemma write_valid_codes_known (path : string) (valid_codes : list CheckOutcome) :
  forall (content : string) (out : list string) (m : gmap string string),
    write_valid_codes path valid_codes
      {| console := out; files := <[path := content]> m |}
    = (tt, {| console := out;
              files := <[path := content +:+ report_entries valid_codes]> m |}).
Proof.
  induction valid_codes as [|o l IH]; intros content out m.
  - simpl. now rewrite append_empty_r.
  - cbn [write_valid_codes report_entries]. unfold bind.
    rewrite !write_known, IH. now rewrite !append_assoc.
Qed.

(** [save_results] replaces the content of the file by the report. *)
Lemma save_results_spec (output_file : string) (valid_codes : list CheckOutcome)
    (total : nat) (w : world) :
  save_results output_file valid_codes total w
  = (tt, {| console := console w;
            files := <[output_file := report_text valid_codes total]> (files w) |}).
Proof.
  unfold save_results, bind, open_w. rewrite !write_known.
  unfold report_text, report_banner, report_total, report_listing.
  destruct valid_codes as [|o l].
  - unfold ret. now rewrite !append_nil, !append_assoc, append_empty_r.
  - rewrite !write_known, write_valid_codes_known.
    now rewrite !append_nil, !append_assoc.
Qed.

(** The files after [run_validation], by what was loaded. *)
Lemma run_validation_files reader output_file driver (w : world) :
  files (snd (run_validation reader output_file driver w)) =
    match fst (load_referral_data reader w) with
    | None | Some [] => files w
    | Some referral_data =>
        <[output_file :=
            report_text (partition_of "valid" (run_outcomes driver 1 referral_data))
                        (length referral_data)]> (files w)
    end.
Proof.
  unfold run_validation. rewrite bind_run.
  pose proof (console_only_load_referral_data reader w) as Hload.
  destruct (load_referral_data reader w) as [[[|r data]|] w1];
    cbn [fst snd] in *; try exact Hload.
  set (referral_data := r :: data) in *.
  rewrite !exec_print, bind_run.
  set (w2 := printed (printed w1 _) _).
  destruct (check_all_partitions driver (length referral_data) referral_data w2)
    as (results & Hres & Hfiles & Hin & _).
  rewrite Hres. rewrite !bind_run, save_results_spec. cbn [fst snd files].
  rewrite console_only_print_results, Hfiles.
  rewrite (Hin "valid") by (unfold statuses; set_solver).
  unfold w2. cbn [printed files]. now rewrite <- Hload.
Qed.

End Reporter.

(** C9, as amended.  A run that loads at least one record replaces the
    report file: afterwards it holds exactly the header banner, the
    total-checked count of this run and, when there are valid results,
    this run's listing, whatever the file held before.  A run that loads
    no record returns before the report is written and leaves the file as
    it was. *)
Theorem report_overwritten_when_records_loaded
    (reader : list (result (gmap string (option string))))
    (output_file : string) (driver : nat -> string -> page) (w : world) :
  (forall referral_data,
      fst (load_referral_data reader w) = Some referral_data ->
      referral_data <> [] ->
      files (snd (run_validation reader output_file driver w)) !! output_file
      = Some (report_banner
              +:+ report_total (length referral_data)
              +:+ report_listing
                    (partition_of "valid" (run_outcomes driver 1 referral_data))))
  /\ (fst (load_referral_data reader w) = None
      \/ fst (load_referral_data reader w) = Some [] ->
      files (snd (run_validation reader output_file driver w)) = files w).
Proof.
  pose proof (run_validation_files reader output_file driver w) as Hfiles.
  split.
  - intros referral_data Hload Hne. rewrite Hfiles, Hload.
    destruct referral_data as [|r data]; [congruence|].
    now rewrite lookup_insert_eq.
  - intros [Hload | Hload]; now rewrite Hfiles, Hload.
Qed.

Lemma report_overwritten_when_records_loaded_witness :
  files (snd (run_validation sample_reader report_path sample_driver stale_world))
    !! report_path
  = Some (report_banner
          +:+ report_total 1
          +:+ report_listing [MkOutcome
                (MkRecord "https://cursor.com/referral?code=ABC123&name=x" "Bob" "ABC123")
                "valid"]).
Proof.
  apply (proj1 (report_overwritten_when_records_loaded
                  sample_reader report_path sample_driver stale_world) sample_data).
  - vm_compute. reflexivity.
  - discriminate.
Defined.

(** C9, as stated, fails: a run over a file without usable rows leaves
    the report of the earlier run in place. *)
Lemma report_kept_when_nothing_loaded :
  fst (load_referral_data [Ok (row_of_link "")] stale_world) = Some []
  /\ files (snd (run_validation [Ok (row_of_link "")] report_path sample_driver
                   stale_world)) !! report_path
     = Some (report_text [] 5)
  /\ report_text [] 5 <> report_text [] 0.
Proof.
  split; [vm_compute; reflexivity | split; [vm_compute; reflexivity|]].
  vm_compute. discriminate.
Qed.

(** ** More on the string primitives *)

Section StripFacts.

Lemma lstrip_fixed (s : string) :
  match s with
  | EmptyString => True
  | String c _ => PyStr.is_space c = false
  end ->
  PyStr.lstrip s = s.
Proof. destruct s as [|c s]; simpl; [reflexivity | now intros ->]. Qed.

Lemma rstrip_cons (c : ascii) (s : string) :
  PyStr.rstrip (String c s) =
    match PyStr.rstrip s with
    | EmptyString => if PyStr.is_space c then EmptyString else String c EmptyString
    | r => String c r
    end.
Proof. reflexivity. Qed.

Lemma rstrip_idempotent (s : string) : PyStr.rstrip (PyStr.rstrip s) = PyStr.rstrip s.
Proof.
  induction s as [|c s IH]; [reflexivity|].
  rewrite rstrip_cons. destruct (PyStr.rstrip s) as [|d r] eqn:E.
  - destruct (PyStr.is_space c) eqn:Hc; [reflexivity|].
    rewrite rstrip_cons. cbn [PyStr.rstrip]. now rewrite Hc.
  - rewrite rstrip_cons, IH. reflexivity.
Qed.

Lemma rstrip_head (c : ascii) (s : string) :
  PyStr.is_space c = false ->
  exists r, PyStr.rstrip (String c s) = String c r.
Proof.
  intros Hc. rewrite rstrip_cons. destruct (PyStr.rstrip s) as [|d r].
  - rewrite Hc. now exists "".
  - now exists (String d r).
Qed.

Lemma lstrip_head (s : string) :
  match PyStr.lstrip s with
  | EmptyString => True
  | String c _ => PyStr.is_space c = false
  end.
Proof.
  induction s as [|c s IH]; simpl; [exact I|].
  destruct (PyStr.is_space c) eqn:Hc; [exact IH | exact Hc].
Qed.

(** The first character of a trimmed text is not white space. *)
Lemma strip_head (s : string) :
  match PyStr.strip s with
  | EmptyString => True
  | String c _ => PyStr.is_space c = false
  end.
Proof.
  unfold PyStr.strip. pose proof (lstrip_head s) as H.
  destruct (PyStr.lstrip s) as [|c l]; [exact I|].
  destruct (rstrip_head c l H) as [r ->]. exact H.
Qed.

Lemma strip_idempotent (s : string) : PyStr.strip (PyStr.strip s) = PyStr.strip s.
Proof.
  unfold PyStr.strip at 1. rewrite (lstrip_fixed _ (strip_head s)).
  unfold PyStr.strip. apply rstrip_idempotent.
Qed.

(** The last character of a trimmed text is not white space. *)
Lemma rstrip_last (s r : string) (c : ascii) :
  PyStr.rstrip s = r +:+ String c "" -> PyStr.is_space c = false.
Proof.
  revert r; induction s as [|d s IH]; intros r H.
  - destruct r; discriminate.
  - rewrite rstrip_cons in H. destruct (PyStr.rstrip s) as [|e t] eqn:E.
    + destruct (PyStr.is_space d) eqn:Hd.
      * destruct r; discriminate.
      * destruct r as [|x r]; [now injection H as <- |].
        rewrite append_cons in H. injection H as _ H. destruct r; discriminate.
    + destruct r as [|x r]; [discriminate|].
      rewrite append_cons in H. injection H as _ H. now apply (IH r).
Qed.

End StripFacts.

(** ** More on [extract_code_from_url] *)

Section ExtractFacts.

Lemma unquote_to_bytes_nonempty (s : string) :
  s <> "" -> Url.unquote_to_bytes s <> "".
Proof.
  destruct s as [|c s]; [congruence|]. intros _. cbn [Url.unquote_to_bytes].
  destruct (Ascii.eqb c "%"); [|discriminate].
  destruct s as [|h1 [|h2 rest]]; try discriminate.
  destruct (Url.hex_val h1), (Url.hex_val h2); discriminate.
Qed.

Lemma replacement_append (s : string) : Url.replacement +:+ s <> "".
Proof. unfold Url.replacement. rewrite append_cons. discriminate. Qed.

Lemma utf8_replace_nonempty (s : string) : s <> "" -> Url.utf8_replace s <> "".
Proof.
  destruct s as [|b0 r0]; [congruence|]. intros _. cbn [Url.utf8_replace].
  repeat match goal with
         | |- (if ?b then _ else _) <> _ => destruct b
         | |- match ?x with EmptyString => _ | String _ _ => _ end <> _ => destruct x
         end;
    first [discriminate | apply replacement_append].
Qed.

Lemma unquote_nonempty (s : string) : s <> "" -> Url.unquote s <> "".
Proof.
  intros H. unfold Url.unquote. destruct (PyStr.has_char "%" s); [|exact H].
  now apply utf8_replace_nonempty, unquote_to_bytes_nonempty.
Qed.

Lemma parse_field_value (f n v : string) :
  Url.parse_field f = Some (n, v) -> v <> "".
Proof.
  unfold Url.parse_field. destruct (negb (PyStr.truthy f)); [discriminate|].
  destruct (PyStr.split_first "=" f) as [n' [v'|]]; [|discriminate].
  destruct v' as [|c v']; [discriminate|]. cbn [PyStr.truthy]. intros H.
  assert (v = Url.unquote (PyStr.replace_char "+" " " (String c v'))) as ->
    by congruence.
  apply unquote_nonempty. cbn [PyStr.replace_char]. discriminate.
Qed.

Lemma values_of_nonempty (k : string) (fs : list string) :
  Forall (fun v => v <> "") (values_of k (omap Url.parse_field fs)).
Proof.
  induction fs as [|f fs IH]; simpl; [constructor|].
  destruct (Url.parse_field f) as [[n v]|] eqn:E; simpl; [|exact IH].
  destruct (String.eqb n k); [|exact IH].
  constructor; [exact (parse_field_value f n v E) | exact IH].
Qed.

(** What [extract_code_from_url] can return: no code, a non-empty code,
    or the exception of [urlsplit]. *)
Lemma extract_code_cases (url : string) :
  extract_code_from_url url = Ok None
  \/ (exists code, extract_code_from_url url = Ok (Some code) /\ code <> "")
  \/ (exists e, extract_code_from_url url = Raise e /\ Url.urlsplit url = Raise e).
Proof.
  unfold extract_code_from_url, Url.urlparse.
  destruct (Url.urlsplit url) as [parsed|e] eqn:Hsplit.
  - rewrite parse_qs_lookup. unfold Url.parse_qsl.
    pose proof (values_of_nonempty "code" (PyStr.split "&" (Url.query parsed))) as Hne.
    destruct (values_of "code" _) as [|v vs]; [now left|].
    right; left. exists v. split; [reflexivity|]. now inversion Hne.
  - right; right. now exists e.
Qed.

End ExtractFacts.

(** ** The records and warnings of a complete pass of the loader *)

Section LoadTrace.

Lemma count_rows_cons (f : gmap string (option string) -> bool)
    (row : gmap string (option string)) reader :
  count_rows f (Ok row :: reader) =
    (if f row then 1 else 0) + count_rows f reader.
Proof. unfold count_rows. simpl. now destruct (f row). Qed.

Lemma row_without_code_bad (row : gmap string (option string)) :
  bad_link row = true -> row_without_code row = false.
Proof. unfold row_without_code. now intros ->. Qed.

Lemma load_trace_skip (row : gmap string (option string)) reader w new w' :
  bad_link row = true ->
  load_trace reader w new w' -> load_trace (Ok row :: reader) w new w'.
Proof.
  intros Hbad (rows' & Hsub & Hbuilt & Hlen & Hcon & Hfiles & Hcount).
  exists rows'. cbn [rows_read List.filter length].
  rewrite !count_rows_cons, (row_without_code_bad row Hbad), Hbad.
  repeat split; auto; [now apply sublist_cons | lia].
Qed.

Lemma load_trace_warn (row : gmap string (option string)) reader w new w' :
  row_without_code row = true ->
  load_trace reader (printed w ("Warning: Could not extract code from " +:+ row_url row))
             new w' ->
  load_trace (Ok row :: reader) w new w'.
Proof.
  intros Hwarn (rows' & Hsub & Hbuilt & Hlen & Hcon & Hfiles & Hcount).
  assert (Hgood : bad_link row = false).
  { unfold row_without_code in Hwarn. now destruct (bad_link row). }
  exists rows'. cbn [rows_read List.filter length map].
  rewrite !count_rows_cons, Hwarn, Hgood.
  repeat split; auto; [now apply sublist_cons | | lia].
  rewrite Hcon. cbn [printed console]. unfold warning_line.
  rewrite <- app_assoc, append_assoc. reflexivity.
Qed.

Lemma load_trace_emit (row : gmap string (option string)) reader w new w' r :
  built_from row r ->
  load_trace reader w new w' -> load_trace (Ok row :: reader) w (r :: new) w'.
Proof.
  intros Hr (rows' & Hsub & Hbuilt & Hlen & Hcon & Hfiles & Hcount).
  assert (Hgood : bad_link row = false) by (destruct Hr as (? & ? & ? & H & _); exact H).
  assert (Hcode : row_without_code row = false).
  { unfold row_without_code. rewrite Hgood. cbn [negb andb].
    destruct Hr as (link & n & Hlink & _ & Hurl & Hex & _).
    rewrite Hlink, <- Hurl, Hex. reflexivity. }
  exists (row :: rows'). cbn [rows_read List.filter length].
  rewrite !count_rows_cons, Hcode, Hgood.
  repeat split; auto; [now apply sublist_skip | lia].
Qed.

Lemma load_rows_trace (reader : list (result (gmap string (option string)))) :
  forall (acc : list ReferralRecord) (w : world) (data : list ReferralRecord) (w' : world),
    load_rows reader acc w = (Ok data, w') ->
    exists new, data = acc ++ new /\ load_trace reader w new w'.
Proof.
  induction reader as [|[row|e] rest IH]; intros acc w data w' H.
  - injection H as <- <-. exists []. rewrite app_nil_r. split; [reflexivity|].
    exists []. unfold count_rows. simpl. rewrite app_nil_r.
    repeat split; auto; constructor.
  - assert (Hskip : bad_link row = true ->
              load_rows rest acc w = (Ok data, w') ->
              exists new, data = acc ++ new /\ load_trace (Ok row :: rest) w new w').
    { intros Hbad H'. destruct (IH _ _ _ _ H') as (new & -> & Ht).
      exists new. split; [reflexivity | now apply load_trace_skip]. }
    cbn [load_rows] in H. unfold bad_link in Hskip.
    destruct (dict_empty row) eqn:He.
    { apply Hskip; [now rewrite (dict_empty_get row "link" He) | exact H]. }
    destruct (dict_get row "link") as [[|c link]|] eqn:Hlink;
      try (apply Hskip; [reflexivity | exact H]).
    set (url := PyStr.strip (String c link)) in *.
    destruct (negb (PyStr.truthy url) || negb (PyStr.startswith url "http")) eqn:Hhttp;
      [apply Hskip; [reflexivity | exact H]|].
    assert (Hgood : bad_link row = false)
      by (unfold bad_link; rewrite Hlink; exact Hhttp).
    assert (Hurl : row_url row = url) by (unfold row_url; now rewrite Hlink).
    destruct (extract_code_cases url) as [Hex | [(code & Hex & Hne) | (e & Hex & _)]];
      rewrite Hex in H.
    + rewrite exec_print in H. destruct (IH _ _ _ _ H) as (new & -> & Ht).
      exists new. split; [reflexivity|]. apply load_trace_warn.
      * unfold row_without_code. rewrite Hgood, Hlink. fold url. now rewrite Hex.
      * now rewrite Hurl.
    + destruct code as [|c' code]; [congruence|].
      destruct (dict_get_default row "name" "Unknown") as [n|] eqn:Hname;
        [|discriminate].
      destruct (IH _ _ _ _ H) as (new & -> & Ht).
      eexists. split; [now rewrite <- app_assoc|]. cbn [app].
      apply load_trace_emit; [|exact Ht].
      exists (String c link), n. cbn [rec_url rec_code rec_name]. fold url.
      repeat split; auto; discriminate.
    + discriminate.
  - discriminate.
Qed.

Lemma load_referral_data_trace (reader : list (result (gmap string (option string))))
    (w : world) (data : list ReferralRecord) (w' : world) :
  load_referral_data reader w = (Some data, w') -> load_trace reader w data w'.
Proof.
  unfold load_referral_data. rewrite bind_run.
  destruct (load_rows reader [] w) as [[d|e] w1] eqn:Hl; cbn [fst snd].
  - intros [= <- <-]. destruct (load_rows_trace _ _ _ _ _ Hl) as (new & -> & Ht).
    exact Ht.
  - rewrite exec_print. discriminate.
Qed.

End LoadTrace.

Section LoadCompose.

(** Loading a reader in two parts: the second part continues from the
    records and the world the first part left, unless the first raised. *)
Lemma load_rows_app (r1 r2 : list (result (gmap string (option string)))) :
  forall (acc : list ReferralRecord) (w : world),
    load_rows (r1 ++ r2) acc w =
      match fst (load_rows r1 acc w) with
      | Ok d => load_rows r2 d (snd (load_rows r1 acc w))
      | Raise e => (Raise e, snd (load_rows r1 acc w))
      end.
Proof.
  induction r1 as [|[row|e] r1 IH]; intros acc w; [reflexivity | | reflexivity].
  cbn [app load_rows].
  destruct (dict_empty row); [apply IH|].
  destruct (dict_get row "link") as [[|c link]|]; try apply IH.
  destruct (negb _ || negb _); [apply IH|].
  destruct (extract_code_from_url _) as [[[|c' code]|]|e];
    try (rewrite !exec_print; apply IH); [|reflexivity].
  destruct (dict_get_default row "name" "Unknown"); [apply IH | reflexivity].
Qed.

Lemma load_referral_data_pair reader w data :
  fst (load_referral_data reader w) = Some data ->
  load_rows reader [] w = (Ok data, snd (load_referral_data reader w)).
Proof.
  unfold load_referral_data. rewrite bind_run.
  destruct (load_rows reader [] w) as [[d|e] w1]; cbn [fst snd].
  - now intros [= ->].
  - rewrite exec_print. discriminate.
Qed.

Lemma load_referral_data_eq reader w data :
  fst (load_referral_data reader w) = Some data ->
  load_referral_data reader w = (Some data, snd (load_referral_data reader w)).
Proof. intros H. rewrite <- H. apply surjective_pairing. Qed.

End LoadCompose.

(** ** Properties of the loaded records *)

(** X1. Every record the loader returns has a non-empty code, and that
    code is what [extract_code_from_url] gives for the record's URL. *)
Theorem loaded_records_have_code
    (reader : list (result (gmap string (option string))))
    (w : world) (data : list ReferralRecord) :
  fst (load_referral_data reader w) = Some data ->
  Forall (fun r => rec_code r <> ""
                   /\ extract_code_from_url (rec_url r) = Ok (Some (rec_code r)))
         data.
Proof.
  intros H. apply load_referral_data_eq, load_referral_data_trace in H.
  destruct H as (rows' & _ & Hbuilt & _).
  induction Hbuilt as [|row r rows' data' Hr _ IH]; constructor; [|exact IH].
  destruct Hr as (link & n & _ & _ & _ & Hex & Hne & _). auto.
Qed.

Lemma loaded_records_have_code_witness :
  Forall (fun r => rec_code r <> ""
                   /\ extract_code_from_url (rec_url r) = Ok (Some (rec_code r)))
         sample_data.
Proof.
  apply (loaded_records_have_code sample_reader empty_world).
  vm_compute. reflexivity.
Defined.

(** X2. In every record the loader returns, the URL and the name are
    non-empty and trimmed, the URL begins with "http", and the name is
    either "Unknown" or the trimmed name column of a row. *)
Theorem loaded_records_trimmed
    (reader : list (result (gmap string (option string))))
    (w : world) (data : list ReferralRecord) :
  fst (load_referral_data reader w) = Some data ->
  Forall (fun r =>
            rec_url r <> "" /\ PyStr.strip (rec_url r) = rec_url r
            /\ PyStr.startswith (rec_url r) "http" = true
            /\ rec_name r <> "" /\ PyStr.strip (rec_name r) = rec_name r
            /\ (rec_name r = "Unknown"
                \/ exists row n, Ok row ∈ reader /\ dict_get row "name" = Some n
                                 /\ rec_name r = PyStr.strip n))
         data.
Proof.
  intros H. apply load_referral_data_eq, load_referral_data_trace in H.
  destruct H as (rows' & Hsub & Hbuilt & Hlen & _).
  assert (Hrows : forall row, row ∈ rows' -> Ok row ∈ reader).
  { intros row Hin. apply (fun H => elem_of_sublist _ _ _ H Hsub) in Hin.
    clear -Hin. induction reader as [|[row'|e] rest IH]; simpl in Hin.
    - inversion Hin.
    - apply elem_of_cons in Hin as [-> | Hin]; [left | right; auto].
    - inversion Hin. }
  clear Hsub Hlen. revert Hrows.
  induction Hbuilt as [|row r rows' data' Hr _ IH]; intros Hrows; constructor.
  - destruct Hr as (link & n & Hlink & Hgood & Hurl & _ & _ & Hname & Hn).
    unfold bad_link in Hgood. rewrite Hlink, <- Hurl in Hgood.
    apply orb_false_iff in Hgood as [Ht Hs].
    apply negb_false_iff in Ht, Hs.
    split; [destruct (rec_url r); [discriminate | discriminate]|].
    split; [rewrite Hurl; apply strip_idempotent|].
    split; [exact Hs|].
    rewrite Hn. destruct (PyStr.truthy (PyStr.strip n)) eqn:Htn.
    + split; [destruct (PyStr.strip n); [discriminate | discriminate]|].
      split; [apply strip_idempotent|].
      unfold dict_get_default in Hname.
      destruct (row !! "name") as [v|] eqn:Hv.
      * right. exists row, n. split; [apply Hrows; left|].
        split; [unfold dict_get; now rewrite Hv | reflexivity].
      * injection Hname as <-. now left.
    + split; [discriminate | split; [reflexivity | now left]].
  - apply IH. intros row' Hin. apply Hrows. now right.
Qed.

Lemma loaded_records_trimmed_witness :
  Forall (fun r =>
            rec_url r <> "" /\ PyStr.strip (rec_url r) = rec_url r
            /\ PyStr.startswith (rec_url r) "http" = true
            /\ rec_name r <> "" /\ PyStr.strip (rec_name r) = rec_name r
            /\ (rec_name r = "Unknown"
                \/ exists row n, Ok row ∈ sample_reader /\ dict_get row "name" = Some n
                                 /\ rec_name r = PyStr.strip n))
         sample_data.
Proof.
  apply (loaded_records_trimmed sample_reader empty_world).
  vm_compute. reflexivity.
Defined.

(** X3. The loader keeps the order of the rows and invents nothing: the
    URLs of the records it returns are, in order, a subsequence of the
    trimmed links of the rows read. *)
Theorem loader_keeps_row_order
    (reader : list (result (gmap string (option string))))
    (w : world) (data : list ReferralRecord) :
  fst (load_referral_data reader w) = Some data ->
  sublist (map rec_url data) (map row_url (rows_read reader)).
Proof.
  intros H. apply load_referral_data_eq, load_referral_data_trace in H.
  destruct H as (rows' & Hsub & Hbuilt & _).
  assert (Hmap : map rec_url data = map row_url rows').
  { clear Hsub. induction Hbuilt as [|row r rows'' data' Hr _ IH]; [reflexivity|].
    cbn [map]. f_equal; [|exact IH].
    destruct Hr as (link & n & Hlink & _ & Hurl & _).
    unfold row_url. now rewrite Hlink. }
  rewrite Hmap. now apply fmap_sublist.
Qed.

Lemma loader_keeps_row_order_witness :
  sublist (map rec_url sample_data) (map row_url (rows_read sample_reader)).
Proof.
  apply (loader_keeps_row_order sample_reader empty_world).
  vm_compute. reflexivity.
Defined.

(** X4. A load that succeeds accounts for every row once: the row gives a
    record, or it fails the link test and is skipped in silence, or it has
    no code and gets a warning.  The console gains exactly those warnings,
    in row order, and no file changes. *)
Theorem loader_accounts_for_every_row
    (reader : list (result (gmap string (option string))))
    (w : world) (data : list ReferralRecord) :
  fst (load_referral_data reader w) = Some data ->
  length data + count_rows bad_link reader + count_rows row_without_code reader
  = length reader
  /\ console (snd (load_referral_data reader w)) =
       console w
       ++ map (fun row => warning_line (row_url row))
            (List.filter row_without_code (rows_read reader))
  /\ files (snd (load_referral_data reader w)) = files w.
Proof.
  intros H. apply load_referral_data_eq, load_referral_data_trace in H.
  destruct H as (rows' & _ & _ & _ & Hcon & Hfiles & Hcount). auto.
Qed.

Lemma loader_accounts_for_every_row_witness :
  length sample_data + count_rows bad_link sample_reader
  + count_rows row_without_code sample_reader = 3
  /\ console (snd (load_referral_data sample_reader empty_world))
     = [warning_line "https://cursor.com/referral?ref=GHI789"].
Proof.
  destruct (loader_accounts_for_every_row sample_reader empty_world sample_data)
    as (Hcount & Hcon & _); [vm_compute; reflexivity|].
  split; [exact Hcount | rewrite Hcon; vm_compute; reflexivity].
Defined.

(** ** How a load fails *)

(** X5. When the reader raises after rows that load, the loader returns
    [None]: the records built so far are dropped, the rows after the
    failure are not read, and the console ends with the error line. *)
Theorem loader_stops_at_reader_exception
    (before after : list (result (gmap string (option string))))
    (e : exn) (w : world) (data : list ReferralRecord) :
  fst (load_referral_data before w) = Some data ->
  load_referral_data (before ++ Raise e :: after) w =
    (None,
     printed (snd (load_referral_data before w))
             ("Error reading CSV file: " +:+ exn_str e)).
Proof.
  intros H. pose proof (load_referral_data_pair before w data H) as Hrows.
  unfold load_referral_data at 1. rewrite bind_run, load_rows_app, Hrows.
  cbn [fst snd load_rows ret]. apply exec_print.
Qed.

Lemma loader_stops_at_reader_exception_witness :
  load_referral_data (sample_reader ++ [Raise csv_error; Ok row_short]) empty_world =
    (None,
     MkWorld [warning_line "https://cursor.com/referral?ref=GHI789";
              "Error reading CSV file: line contains NUL" +:+ newline] ∅).
Proof.
  rewrite (loader_stops_at_reader_exception sample_reader [Ok row_short] csv_error
             empty_world sample_data); [|vm_compute; reflexivity].
  vm_compute. reflexivity.
Defined.

(** X6. A row that passes the link test and has a code but whose name
    column holds [None], as [DictReader] leaves it for a short line, ends
    the load: [None.strip()] raises, the loader returns [None] and the
    records built so far are dropped. *)
Theorem loader_aborts_on_unfilled_name
    (before after : list (result (gmap string (option string))))
    (row : gmap string (option string)) (code : string)
    (w : world) (data : list ReferralRecord) :
  fst (load_referral_data before w) = Some data ->
  bad_link row = false ->
  extract_code_from_url (row_url row) = Ok (Some code) ->
  row !! "name" = Some None ->
  load_referral_data (before ++ Ok row :: after) w =
    (None,
     printed (snd (load_referral_data before w))
             "Error reading CSV file: 'NoneType' object has no attribute 'strip'").
Proof.
  intros H Hgood Hcode Hname.
  pose proof (load_referral_data_pair before w data H) as Hrows.
  unfold load_referral_data at 1. rewrite bind_run, load_rows_app, Hrows.
  cbn [fst snd load_rows].
  destruct (bad_link_false row Hgood) as (c & link & Hlink & He & Hhttp).
  unfold row_url in Hcode. rewrite Hlink in Hcode.
  change (default "" (Some (String c link))) with (String c link) in Hcode.
  rewrite He, Hlink, Hhttp, Hcode.
  destruct (extract_code_cases (PyStr.strip (String c link)))
    as [Hex | [(code' & Hex & Hne) | (e & Hex & _)]];
    rewrite Hex in Hcode; try discriminate.
  injection Hcode as <-. destruct code' as [|c' code']; [congruence|].
  unfold dict_get_default. rewrite Hname. cbn [ret fst snd]. apply exec_print.
Qed.

Lemma loader_aborts_on_unfilled_name_witness :
  fst (load_referral_data (sample_reader ++ [Ok row_short]) empty_world) = None.
Proof.
  rewrite (loader_aborts_on_unfilled_name sample_reader [] row_short "JKL012"
             empty_world sample_data); vm_compute; reflexivity.
Defined.

(** X7. A row whose trimmed link begins with "http" and is rejected by
    [urlsplit] ends the load in the same way: the exception [urlsplit]
    raises reaches the handler of the loader, which prints its message and
    returns [None]. *)
Theorem loader_aborts_on_rejected_url
    (before after : list (result (gmap string (option string))))
    (row : gmap string (option string)) (e : exn)
    (w : world) (data : list ReferralRecord) :
  fst (load_referral_data before w) = Some data ->
  bad_link row = false ->
  Url.urlsplit (row_url row) = Raise e ->
  load_referral_data (before ++ Ok row :: after) w =
    (None,
     printed (snd (load_referral_data before w))
             ("Error reading CSV file: " +:+ exn_str e)).
Proof.
  intros H Hgood Hsplit.
  pose proof (load_referral_data_pair before w data H) as Hrows.
  unfold load_referral_data at 1. rewrite bind_run, load_rows_app, Hrows.
  cbn [fst snd load_rows].
  destruct (bad_link_false row Hgood) as (c & link & Hlink & He & Hhttp).
  unfold row_url in Hsplit. rewrite Hlink in Hsplit.
  change (default "" (Some (String c link))) with (String c link) in Hsplit.
  rewrite He, Hlink, Hhttp.
  unfold extract_code_from_url, Url.urlparse. rewrite Hsplit.
  cbn [ret fst snd]. apply exec_print.
Qed.

Lemma loader_aborts_on_rejected_url_witness :
  load_referral_data
    (sample_reader ++ [Ok (row_of_link "http://[abc]/?code=X")]) empty_world
  = (None,
     printed (snd (load_referral_data sample_reader empty_world))
       "Error reading CSV file: 'abc' does not appear to be an IPv4 or IPv6 address").
Proof.
  rewrite (loader_aborts_on_rejected_url sample_reader []
             (row_of_link "http://[abc]/?code=X")
             (Url.ValueError "'abc' does not appear to be an IPv4 or IPv6 address")
             empty_world sample_data);
    vm_compute; reflexivity.
Defined.

(** The same with an unbalanced bracket. *)
Example loader_aborts_on_unbalanced_bracket :
  load_referral_data
    (sample_reader ++ [Ok (row_of_link "http://[cursor.com/referral?code=ABC123")])
    empty_world
  = (None,
     printed (snd (load_referral_data sample_reader empty_world))
       "Error reading CSV file: Invalid IPv6 URL").
Proof. vm_compute; reflexivity. Qed.

(** ** Further properties of the classifier *)

Section CaseFolding.

Lemma lower_char_idempotent (c : ascii) :
  PyStr.lower_char (PyStr.lower_char c) = PyStr.lower_char c.
Proof. destruct c as [[] [] [] [] [] [] [] []]; reflexivity. Qed.

Lemma lower_idempotent (s : string) : PyStr.lower (PyStr.lower s) = PyStr.lower s.
Proof.
  induction s as [|c s IH]; [reflexivity|].
  cbn [PyStr.lower]. now rewrite lower_char_idempotent, IH.
Qed.

Lemma get_page_text_lower_page (p : page) :
  get_page_text (lower_page p) = get_page_text p.
Proof.
  unfold get_page_text, lower_page. cbn [body_text page_source].
  destruct (body_text p) as [t|e]; cbn [map_result];
    [now rewrite lower_idempotent|].
  destruct (page_source p) as [t|e']; cbn [map_result];
    [now rewrite lower_idempotent | reflexivity].
Qed.

Lemma title_check_lower_page (p : page) :
  title_check (lower_page p) = title_check p.
Proof.
  unfold title_check, lower_page. cbn [title].
  destruct (title p) as [t|e]; cbn [map_result];
    [now rewrite lower_idempotent | reflexivity].
Qed.

Lemma scan_headings_lower (hs : list (result string)) :
  scan_headings (map (map_result PyStr.lower) hs) = scan_headings hs.
Proof.
  induction hs as [|[raw|e] hs IH]; [reflexivity | | reflexivity].
  cbn [map map_result scan_headings]. rewrite lower_idempotent.
  destruct (heading_verdict (PyStr.lower raw)); [reflexivity | exact IH].
Qed.

Lemma element_check_lower_page (p : page) :
  element_check (lower_page p) = element_check p.
Proof.
  unfold element_check, lower_page. cbn [headings].
  destruct (headings p) as [hs|e]; cbn [map_result];
    [now rewrite scan_headings_lower | reflexivity].
Qed.

Lemma classify_page_lower_page (p : page) :
  classify_page (lower_page p) = classify_page p.
Proof.
  unfold classify_page.
  rewrite get_page_text_lower_page, title_check_lower_page, element_check_lower_page.
  reflexivity.
Qed.

End CaseFolding.

(** X9. The classification ignores letter case: two pages whose
    navigation outcome is the same and whose body text, page source, title
    and element texts agree once lower-cased get the same status and the
    same log line from [check_referral_status]. *)
Theorem classification_ignores_case
    (url : string) (d1 d2 : string -> page) (w : world) :
  lower_page (d1 url) = lower_page (d2 url) ->
  check_referral_status url d1 w = check_referral_status url d2 w.
Proof.
  intros H. unfold check_referral_status.
  rewrite <- (classify_page_lower_page (d1 url)), H, classify_page_lower_page.
  reflexivity.
Qed.

Lemma classification_ignores_case_witness :
  check_referral_status "https://cursor.com/referral?code=ABC123"
    (fun _ => page_offer_upper) empty_world
  = check_referral_status "https://cursor.com/referral?code=ABC123"
      (fun _ => page_offer_mixed) empty_world.
Proof.
  apply classification_ignores_case. vm_compute. reflexivity.
Defined.

(** X10. The text [get_page_text] hands to the checks is lower-case; it
    comes from the body whenever the body can be read, and the call fails
    only when the body and the page source both fail, with the exception
    of the page source. *)
Theorem page_text_is_lower_case (p : page) :
  (forall text, get_page_text p = Ok text ->
     PyStr.lower text = text
     /\ (forall raw, body_text p = Ok raw -> text = PyStr.lower raw))
  /\ (forall e, get_page_text p = Raise e <->
        (exists e0, body_text p = Raise e0) /\ page_source p = Raise e).
Proof.
  unfold get_page_text. split.
  - intros text H. destruct (body_text p) as [t|e0].
    + injection H as <-. split; [apply lower_idempotent|].
      now intros raw [= ->].
    + destruct (page_source p) as [s|e]; [|discriminate].
      injection H as <-. split; [apply lower_idempotent | discriminate].
  - intros e. destruct (body_text p) as [t|e0].
    + split; [discriminate | intros [[e1 H] _]; discriminate].
    + destruct (page_source p) as [s|e'].
      * split; [discriminate | intros [_ H]; discriminate].
      * split; [intros [= ->]; eauto | intros [_ [= ->]]; reflexivity].
Qed.

(** X11. More text never removes a match of the two text checks: when a
    text occurs inside a longer one, whatever [is_valid_code] or
    [is_invalid_code] accepts in the shorter it accepts in the longer. *)
Theorem text_checks_monotone (text longer : string) :
  substring_of text longer ->
  (is_valid_code text = true -> is_valid_code longer = true)
  /\ (is_invalid_code text = true -> is_invalid_code longer = true).
Proof.
  intros Hsub.
  assert (Hup : forall p, substring_of p text -> substring_of p longer)
    by (intros p Hp; exact (substring_of_trans p text longer Hp Hsub)).
  rewrite !is_valid_code_spec, !is_invalid_code_spec.
  unfold valid_text, invalid_text. split.
  - intros [H1 H2]. auto.
  - intros [H | [H | (H1 & H2 & H3)]]; auto 6.
Qed.

Lemma text_checks_monotone_witness :
  is_valid_code "header | you both get $50 in credit | footer" = true.
Proof.
  apply (text_checks_monotone "you both get $50 in credit").
  - exists "header | ", " | footer". reflexivity.
  - reflexivity.
Defined.

(** ** Effects of a run *)

Section RunEffects.

Lemma console_grows_ret {A : Type} (a : A) : console_grows (ret a).
Proof. intros w. reflexivity. Qed.

Lemma console_grows_print_end (s e : string) : console_grows (print_end s e).
Proof. intros w. now apply prefix_app_r. Qed.

Lemma console_grows_print (s : string) : console_grows (print s).
Proof. apply console_grows_print_end. Qed.

Lemma console_grows_bind {A B : Type} (m : IO A) (k : A -> IO B) :
  console_grows m -> (forall a, console_grows (k a)) -> console_grows (bind m k).
Proof.
  intros Hm Hk w. rewrite bind_run. etrans; [apply Hm | apply Hk].
Qed.

Lemma console_grows_write (path s : string) : console_grows (write path s).
Proof. intros w. reflexivity. Qed.

Lemma console_grows_check_referral_status (url : string) (d : string -> page) :
  console_grows (check_referral_status url d).
Proof.
  intros w. rewrite check_referral_status_snd.
  destruct (classify_page (d url)); [reflexivity | now apply prefix_app_r].
Qed.

Lemma console_grows_load_referral_data reader :
  console_grows (load_referral_data reader).
Proof.
  assert (Hrows : forall acc, console_grows (load_rows reader acc)).
  { induction reader as [|[row|e] rest IH]; intros acc; try apply console_grows_ret.
    intros w. cbn [load_rows].
    destruct (dict_empty row); [apply IH|].
    destruct (dict_get row "link") as [[|c link]|]; try apply IH.
    destruct (negb _ || negb _); [apply IH|].
    destruct (extract_code_from_url _) as [[[|c' code]|]|e];
      try (rewrite exec_print; etrans; [|apply IH]; now apply prefix_app_r);
      [|reflexivity].
    destruct (dict_get_default row "name" "Unknown"); [apply IH | reflexivity]. }
  unfold load_referral_data. apply console_grows_bind; [apply Hrows|].
  intros [data|e]; [apply console_grows_ret|].
  apply console_grows_bind; [apply console_grows_print | intros _; apply console_grows_ret].
Qed.

Lemma console_grows_check_all (driver : nat -> string -> page) (total : nat)
    (todo : list ReferralRecord) :
  forall i results, console_grows (check_all driver total i todo results).
Proof.
  induction todo as [|data rest IH]; intros i results; [apply console_grows_ret|].
  cbn [check_all].
  apply console_grows_bind; [apply console_grows_print_end | intros _].
  apply console_grows_bind; [apply console_grows_check_referral_status | intros st].
  destruct (results !! st); [|apply console_grows_ret].
  apply console_grows_bind; [apply console_grows_print | intros _]. apply IH.
Qed.

Lemma console_grows_print_results valid_codes invalid_codes error_codes
    unknown_codes total :
  console_grows
    (print_results valid_codes invalid_codes error_codes unknown_codes total).
Proof.
  assert (Hlist : forall l, console_grows (print_valid_codes l)).
  { induction l as [|o l IH]; [apply console_grows_ret|]. cbn [print_valid_codes].
    repeat (apply console_grows_bind; [apply console_grows_print | intros _]).
    exact IH. }
  unfold print_results.
  repeat (apply console_grows_bind; [apply console_grows_print | intros _]).
  destruct valid_codes; [apply console_grows_ret|].
  repeat (apply console_grows_bind; [apply console_grows_print | intros _]).
  apply Hlist.
Qed.

Lemma console_grows_save_results output_file valid_codes total :
  console_grows (save_results output_file valid_codes total).
Proof. intros w. now rewrite save_results_spec. Qed.

Lemma console_grows_run_validation reader output_file driver :
  console_grows (run_validation reader output_file driver).
Proof.
  unfold run_validation.
  apply console_grows_bind; [apply console_grows_load_referral_data|].
  intros [[|r data]|]; try apply console_grows_ret.
  repeat (apply console_grows_bind; [apply console_grows_print | intros _]).
  apply console_grows_bind; [apply console_grows_check_all|].
  intros [results|e]; [|apply console_grows_ret].
  apply console_grows_bind; [apply console_grows_print_results | intros _].
  apply console_grows_bind; [apply console_grows_save_results | intros _].
  apply console_grows_bind; [apply console_grows_print | intros _].
  apply console_grows_ret.
Qed.

Lemma partition_of_sublist (s : string) (outcomes : list CheckOutcome) :
  sublist (partition_of s outcomes) outcomes.
Proof.
  induction outcomes as [|o l IH]; [constructor|].
  rewrite partition_of_cons. destruct (String.eqb (out_status o) s).
  - now apply sublist_skip.
  - now apply sublist_cons.
Qed.

Lemma report_entries_app (l1 l2 : list CheckOutcome) :
  report_entries (l1 ++ l2) = report_entries l1 +:+ report_entries l2.
Proof.
  induction l1 as [|o l1 IH]; [reflexivity|].
  cbn [app report_entries]. now rewrite IH, !append_assoc.
Qed.

End RunEffects.

(** X12. Whatever the rows and the browser do, a run of [run_validation]
    in which the report file can be opened writes to no file but the
    report, and only adds to the console. *)
Theorem run_validation_contained
    (reader : list (result (gmap string (option string))))
    (output_file : string) (driver : nat -> string -> page) (w : world) :
  (forall path, path <> output_file ->
     files (snd (run_validation reader output_file driver w)) !! path
     = files w !! path)
  /\ console w `prefix_of` console (snd (run_validation reader output_file driver w)).
Proof.
  pose proof (run_validation_files reader output_file driver w) as Hfiles.
  split; [|apply console_grows_run_validation].
  intros path Hne. rewrite Hfiles.
  destruct (fst (load_referral_data reader w)) as [[|r data]|]; try reflexivity.
  now rewrite lookup_insert_ne.
Qed.

(** A run over the sample rows keeps the unrelated file and the console
    line that were there. *)
Example run_validation_contained_example :
  files (snd (run_validation sample_reader report_path sample_driver world_with_notes))
    !! "notes.txt" = Some "keep"
  /\ head (console (snd (run_validation sample_reader report_path sample_driver
                           world_with_notes)))
     = Some ("$ python check_referrals.py" +:+ newline).
Proof. split; vm_compute; reflexivity. Qed.

(** X13. Within each partition the outcomes keep the input order: the
    records of a partition are a subsequence of the loaded records. *)
Theorem partitions_keep_input_order (driver : nat -> string -> page)
    (referral_data : list ReferralRecord) (w : world) (s : string) :
  exists results,
    fst (check_all driver (length referral_data) 1 referral_data initial_results w)
    = Ok results
    /\ sublist (map out_data (results !!! s : list CheckOutcome)) referral_data.
Proof.
  destruct (check_all_partitions driver (length referral_data) referral_data w)
    as (results & Hres & _ & Hin & Hout).
  exists results. split; [exact Hres|].
  destruct (decide (s ∈ statuses)) as [Hs|Hs].
  - rewrite (Hin s Hs).
    rewrite <- (run_outcomes_data driver 1 referral_data) at 2.
    apply fmap_sublist, partition_of_sublist.
  - rewrite lookup_total_alt, (Hout s Hs). apply sublist_nil_l.
Qed.

(** X14. Saving is idempotent and forgets the old content: the file
    holds the report whatever it held before, and saving the same results
    again changes nothing, neither files nor console. *)
Theorem save_results_idempotent (output_file : string)
    (valid_codes : list CheckOutcome) (total : nat) (w : world) :
  let w1 := snd (save_results output_file valid_codes total w) in
  files w1 !! output_file = Some (report_text valid_codes total)
  /\ console w1 = console w
  /\ (forall path, path <> output_file -> files w1 !! path = files w !! path)
  /\ snd (save_results output_file valid_codes total w1) = w1.
Proof.
  cbn zeta. rewrite !save_results_spec. cbn [snd files console].
  split; [apply lookup_insert_eq | split; [reflexivity | split]].
  - intros path Hne. now rewrite lookup_insert_ne.
  - now rewrite insert_insert_eq.
Qed.

(** X15. The saved report lists every valid outcome it is given: the
    block with its code and URL occurs in the file; with no valid outcome
    the file is the banner and the total alone. *)
Theorem saved_report_lists_valid_codes (output_file : string)
    (valid_codes : list CheckOutcome) (total : nat) (w : world) :
  exists content,
    files (snd (save_results output_file valid_codes total w)) !! output_file
    = Some content
    /\ (forall o, o ∈ valid_codes -> substring_of (report_block o) content)
    /\ (valid_codes = [] -> content = report_banner +:+ report_total total).
Proof.
  rewrite save_results_spec. cbn [snd files]. rewrite lookup_insert_eq.
  eexists. split; [reflexivity | split].
  - intros o Ho. apply list_elem_of_split in Ho as (l1 & l2 & ->).
    unfold report_text, report_listing.
    destruct (l1 ++ o :: l2) as [|o' l'] eqn:E; [now destruct l1|]. rewrite <- E.
    rewrite report_entries_app. cbn [report_entries]. fold (report_block o).
    exists (report_banner +:+ report_total total
            +:+ ("VALID/UNCLAIMED CODES:" +:+ newline)
            +:+ (PyStr.repeat_str "-" 30 +:+ newline)
            +:+ report_entries l1),
           (report_entries l2).
    unfold report_block. rewrite !append_assoc. reflexivity.
  - intros ->. unfold report_text, report_listing. now rewrite append_empty_r.
Qed.

(** ** The fragment of a URL *)

Section Fragment.

Lemma has_char_append (c : ascii) (a b : string) :
  PyStr.has_char c (a +:+ b) = PyStr.has_char c a || PyStr.has_char c b.
Proof.
  induction a as [|x a IH]; [reflexivity|].
  rewrite append_cons. cbn [PyStr.has_char]. now rewrite IH, orb_assoc.
Qed.

Lemma lstrip_c0_fragment (u f : string) :
  Url.lstrip_c0 (u +:+ "#" +:+ f) = Url.lstrip_c0 u +:+ "#" +:+ f.
Proof.
  induction u as [|c u IH]; [reflexivity|].
  rewrite append_cons. cbn [Url.lstrip_c0].
  destruct (Url.is_c0_or_space c); [exact IH | now rewrite append_cons].
Qed.

Lemma lstrip_c0_has_char (c : ascii) (u : string) :
  PyStr.has_char c u = false -> PyStr.has_char c (Url.lstrip_c0 u) = false.
Proof.
  induction u as [|x u IH]; [reflexivity|]. cbn [Url.lstrip_c0].
  destruct (Url.is_c0_or_space x); [|auto].
  cbn [PyStr.has_char]. intros H. apply orb_false_iff in H as [_ H]. auto.
Qed.

Lemma remove_char_append (a : ascii) (x y : string) :
  PyStr.remove_char a (x +:+ y) = PyStr.remove_char a x +:+ PyStr.remove_char a y.
Proof.
  induction x as [|c x IH]; [reflexivity|].
  rewrite append_cons. cbn [PyStr.remove_char].
  destruct (Ascii.eqb c a); [exact IH | now rewrite append_cons, IH].
Qed.

Lemma remove_char_has_char (a c : ascii) (x : string) :
  PyStr.has_char c x = false -> PyStr.has_char c (PyStr.remove_char a x) = false.
Proof.
  induction x as [|d x IH]; [reflexivity|]. cbn [PyStr.has_char PyStr.remove_char].
  intros H. apply orb_false_iff in H as [H1 H2].
  destruct (Ascii.eqb d a); [auto|]. cbn [PyStr.has_char]. now rewrite H1, IH.
Qed.

Lemma remove_unsafe_fragment (u f : string) :
  Url.remove_unsafe (u +:+ "#" +:+ f)
  = Url.remove_unsafe u +:+ "#" +:+ Url.remove_unsafe f.
Proof.
  unfold Url.remove_unsafe. rewrite !remove_char_append. reflexivity.
Qed.

Lemma remove_unsafe_has_char (c : ascii) (u : string) :
  PyStr.has_char c u = false -> PyStr.has_char c (Url.remove_unsafe u) = false.
Proof.
  intros H. unfold Url.remove_unsafe. now repeat apply remove_char_has_char.
Qed.

Lemma split_first_append (c : ascii) (v y : string) :
  PyStr.split_first c (v +:+ y) =
    match PyStr.split_first c v with
    | (h, Some t) => (h, Some (t +:+ y))
    | (h, None) => (h +:+ fst (PyStr.split_first c y), snd (PyStr.split_first c y))
    end.
Proof.
  induction v as [|x v IH].
  - rewrite append_nil. cbn [PyStr.split_first]. now destruct (PyStr.split_first c y).
  - rewrite append_cons. cbn [PyStr.split_first].
    destruct (Ascii.eqb x c); [reflexivity|]. rewrite IH.
    destruct (PyStr.split_first c v) as [h [t|]]; reflexivity.
Qed.

Lemma split_first_absent (c : ascii) (v : string) :
  PyStr.has_char c v = false -> PyStr.split_first c v = (v, None).
Proof.
  induction v as [|x v IH]; [reflexivity|]. cbn [PyStr.has_char PyStr.split_first].
  intros H. apply orb_false_iff in H as [H1 H2].
  rewrite Ascii.eqb_sym, H1, (IH H2). reflexivity.
Qed.

Lemma split_first_parts (c : ascii) (v h t : string) :
  PyStr.split_first c v = (h, Some t) -> v = h +:+ String c t.
Proof.
  revert h; induction v as [|x v IH]; intros h; [discriminate|].
  cbn [PyStr.split_first]. destruct (Ascii.eqb_spec x c) as [->|Hne].
  - now intros [= <- <-].
  - destruct (PyStr.split_first c v) as [h' [t'|]]; intros [= <- <-].
    now rewrite append_cons, <- (IH h' eq_refl).
Qed.

Lemma split_first_fragment (v g : string) :
  PyStr.has_char "#" v = false ->
  PyStr.split_first "#" (v +:+ "#" +:+ g) = (v, Some g)
  /\ PyStr.split_first "#" v = (v, None).
Proof.
  intros H. rewrite split_first_append, (split_first_absent _ _ H).
  rewrite (append_cons "#" "" g), append_nil.
  change (PyStr.split_first "#" (String "#" g)) with ("", Some g).
  cbn [fst snd]. now rewrite append_empty_r.
Qed.

Lemma all_chars_append (f : ascii -> bool) (a b : string) :
  Url.all_chars f (a +:+ b) = Url.all_chars f a && Url.all_chars f b.
Proof.
  induction a as [|x a IH]; [reflexivity|].
  rewrite append_cons. cbn [Url.all_chars]. now rewrite IH, andb_assoc.
Qed.

(** The scheme of a URL is found before any [#]. *)
Lemma split_scheme_fragment (v g : string) :
  PyStr.has_char "#" v = false ->
  Url.split_scheme (v +:+ "#" +:+ g)
  = (fst (Url.split_scheme v), snd (Url.split_scheme v) +:+ "#" +:+ g)
  /\ PyStr.has_char "#" (snd (Url.split_scheme v)) = false.
Proof.
  intros H. unfold Url.split_scheme. rewrite split_first_append.
  destruct (PyStr.split_first ":" v) as [h [t|]] eqn:Hv.
  - assert (Ht : PyStr.has_char "#" t = false).
    { apply split_first_parts in Hv. rewrite Hv, has_char_append in H.
      apply orb_false_iff in H as [_ H]. cbn [PyStr.has_char] in H.
      now apply orb_false_iff in H as [_ H]. }
    destruct h as [|c h]; [now split|].
    destruct (Url.is_alpha c && Url.all_chars Url.scheme_char (String c h));
      now split.
  - assert (Hh : h = v).
    { rewrite (split_first_absent ":" v) in Hv; [congruence|].
      clear -Hv. revert h Hv; induction v as [|x v IH]; intros h; [reflexivity|].
      cbn [PyStr.split_first PyStr.has_char].
      destruct (Ascii.eqb_spec x ":") as [->|Hne]; [discriminate|].
      destruct (PyStr.split_first ":" v) as [h' [t'|]]; [discriminate|].
      intros _. rewrite (IH h' eq_refl), orb_false_r.
      destruct (Ascii.eqb_spec ":" x); congruence. }
    subst h.
    destruct (PyStr.split_first ":" ("#" +:+ g)) as [h' t'] eqn:Hg. cbn [fst snd].
    assert (Hh' : exists h'', h' = String "#" h'').
    { rewrite append_cons, append_nil in Hg. cbn [PyStr.split_first] in Hg.
      change (Ascii.eqb "#" ":") with false in Hg.
      destruct (PyStr.split_first ":" g) as [a b]. injection Hg as <- _. eauto. }
    destruct Hh' as [h'' ->].
    assert (Hnot : forall c pre, String c pre = v +:+ String "#" h'' ->
               Url.is_alpha c && Url.all_chars Url.scheme_char (String c pre) = false).
    { intros c pre ->. rewrite all_chars_append. cbn [Url.all_chars].
      change (Url.scheme_char "#") with false.
      now rewrite andb_false_r, andb_false_r. }
    split.
    + destruct (v +:+ String "#" h'') as [|c pre] eqn:E.
      * destruct v; discriminate.
      * destruct t' as [t'|].
        -- rewrite (Hnot c pre eq_refl). now destruct v.
        -- now destruct v.
    + now destruct v.
Qed.


Lemma splitnetloc_fragment (u g : string) :
  Url.splitnetloc (u +:+ "#" +:+ g)
  = (fst (Url.splitnetloc u), snd (Url.splitnetloc u) +:+ "#" +:+ g).
Proof.
  induction u as [|c u IH]; [reflexivity|].
  rewrite append_cons. cbn [Url.splitnetloc].
  destruct (PyStr.has_char c "/?#"); [now rewrite append_cons|].
  rewrite IH. now destruct (Url.splitnetloc u).
Qed.

Lemma splitnetloc_has_char (c : ascii) (u : string) :
  PyStr.has_char c u = false ->
  PyStr.has_char c (snd (Url.splitnetloc u)) = false.
Proof.
  induction u as [|x u IH]; [reflexivity|]. cbn [Url.splitnetloc].
  intros H. destruct (PyStr.has_char x "/?#"); [exact H|].
  cbn [PyStr.has_char] in H. apply orb_false_iff in H as [_ H].
  specialize (IH H). now destruct (Url.splitnetloc u).
Qed.

Lemma netloc_step_not_slash (c : ascii) (s : string) :
  c <> "/"%char -> netloc_step (String c s) = Ok ("", String c s).
Proof.
  intros H. destruct c as [[] [] [] [] [] [] [] []]; try reflexivity. now elim H.
Qed.

Lemma netloc_step_slash_not (c : ascii) (s : string) :
  c <> "/"%char ->
  netloc_step (String "/" (String c s)) = Ok ("", String "/" (String c s)).
Proof.
  intros H. destruct c as [[] [] [] [] [] [] [] []]; try reflexivity. now elim H.
Qed.

Lemma netloc_step_fragment (u g : string) :
  PyStr.has_char "#" u = false ->
  netloc_step (u +:+ "#" +:+ g) =
    match netloc_step u with
    | Ok (n, r) => Ok (n, r +:+ "#" +:+ g)
    | Raise e => Raise e
    end
  /\ forall n r, netloc_step u = Ok (n, r) -> PyStr.has_char "#" r = false.
Proof.
  intros H. destruct u as [|c1 u]; [split; [reflexivity | now intros n r [= _ <-]]|].
  rewrite append_cons. destruct (Ascii.eqb_spec c1 "/") as [->|H1].
  2:{ rewrite !(netloc_step_not_slash c1) by exact H1.
      split; [now rewrite append_cons | now intros n r [= _ <-]]. }
  destruct u as [|c2 u].
  { split; [reflexivity | now intros n r [= _ <-]]. }
  rewrite append_cons. destruct (Ascii.eqb_spec c2 "/") as [->|H2].
  2:{ rewrite !(netloc_step_slash_not c2) by exact H2.
      split; [now rewrite !append_cons | now intros n r [= _ <-]]. }
  assert (Hu : PyStr.has_char "#" u = false).
  { cbn [PyStr.has_char] in H. now rewrite !orb_false_l in H. }
  cbn [netloc_step]. rewrite splitnetloc_fragment.
  pose proof (splitnetloc_has_char "#" u Hu) as Hr.
  destruct (Url.splitnetloc u) as [n r]. cbn [fst snd] in *.
  destruct (Url.check_netloc_brackets n) as [[]|e]; split;
    try reflexivity; try discriminate.
  now intros n' r' [= _ <-].
Qed.

Lemma urlsplit_steps (url : string) :
  Url.urlsplit url =
    match netloc_step (snd (Url.split_scheme (Url.remove_unsafe (Url.lstrip_c0 url)))) with
    | Raise e => Raise e
    | Ok (netloc, rest) =>
        let fr := PyStr.split_first "#" rest in
        let qr := PyStr.split_first "?" (fst fr) in
        Ok (Url.MkSplit
              (fst (Url.split_scheme (Url.remove_unsafe (Url.lstrip_c0 url))))
              netloc (fst qr) (default "" (snd qr)) (default "" (snd fr)))
    end.
Proof.
  unfold Url.urlsplit, netloc_step.
  destruct (Url.split_scheme _) as [sch u]. cbn [fst snd].
  destruct (match u with String "/" (String "/" rest) => _ | _ => _ end)
    as [[n r]|e]; [|reflexivity].
  destruct (PyStr.split_first "#" r) as [u1 [f|]]; cbn [fst snd default];
    destruct (PyStr.split_first "?" u1) as [u2 [q|]]; reflexivity.
Qed.

(** With a fragment appended, [urlsplit] finds the same components and
    the fragment. *)
Lemma urlsplit_fragment (url frag : string) :
  PyStr.has_char "#" url = false ->
  Url.urlsplit (url +:+ "#" +:+ frag) =
    match Url.urlsplit url with
    | Ok p => Ok (Url.MkSplit (Url.scheme p) (Url.netloc p) (Url.path p)
                              (Url.query p) (Url.remove_unsafe frag))
    | Raise e => Raise e
    end.
Proof.
  intros H. rewrite !urlsplit_steps.
  rewrite lstrip_c0_fragment, remove_unsafe_fragment.
  pose proof (remove_unsafe_has_char "#" _ (lstrip_c0_has_char "#" url H)) as H1.
  set (v := Url.remove_unsafe (Url.lstrip_c0 url)) in *.
  destruct (split_scheme_fragment v (Url.remove_unsafe frag) H1) as [-> H2].
  cbn [fst snd].
  destruct (netloc_step_fragment _ (Url.remove_unsafe frag) H2) as [-> H3].
  destruct (netloc_step (snd (Url.split_scheme v))) as [[n r]|e]; [|reflexivity].
  destruct (split_first_fragment r (Url.remove_unsafe frag) (H3 n r eq_refl))
    as [-> ->].
  reflexivity.
Qed.

End Fragment.

(** X16. The fragment of a URL never contributes a code: appending
    [#] and any text to a URL without [#] leaves the result of
    [extract_code_from_url] as it was. *)
Theorem fragment_gives_no_code (url frag : string) :
  PyStr.has_char "#" url = false ->
  extract_code_from_url (url +:+ "#" +:+ frag) = extract_code_from_url url.
Proof.
  intros H. unfold extract_code_from_url, Url.urlparse.
  rewrite (urlsplit_fragment url frag H).
  now destruct (Url.urlsplit url).
Qed.

Lemma fragment_gives_no_code_witness :
  extract_code_from_url "https://cursor.com/referral?ref=GHI789#code=ABC123" = Ok None.
Proof.
  change (extract_code_from_url
            ("https://cursor.com/referral?ref=GHI789" +:+ "#" +:+ "code=ABC123")
          = Ok None).
  rewrite (fragment_gives_no_code "https://cursor.com/referral?ref=GHI789" "code=ABC123");
    reflexivity.
Defined.

(** X8. [extract_code_from_url] returns no code or a non-empty one; the
    index [[0]] never fails: an exception leaves the function exactly when
    [urlsplit] raises it. *)
Theorem extract_code_outcomes (url : string) :
  (forall code, extract_code_from_url url = Ok (Some code) -> code <> "")
  /\ (forall e, extract_code_from_url url = Raise e <-> Url.urlsplit url = Raise e).
Proof.
  split.
  - intros code H.
    destruct (extract_code_cases url) as [Hex | [(c & Hex & Hne) | (e & Hex & _)]];
      rewrite Hex in H; try discriminate. now injection H as <-.
  - intros e. split.
    + intros H.
      destruct (extract_code_cases url) as [Hex | [(c & Hex & Hne) | (e' & Hex & Hs)]];
        rewrite Hex in H; try discriminate. now injection H as <-.
    + intros Hs. unfold extract_code_from_url, Url.urlparse. now rewrite Hs.
Qed.

(** ** The console summary *)

Section ConsoleSummary.

Lemma print_valid_codes_console (valid_codes : list CheckOutcome) :
  forall w, print_valid_codes valid_codes w =
            (tt, {| console := console w ++ flat_map listing_chunks valid_codes;
                    files := files w |}).
Proof.
  induction valid_codes as [|o l IH]; intros w.
  - cbn [print_valid_codes flat_map]. rewrite app_nil_r. now destruct w.
  - cbn [print_valid_codes]. rewrite !exec_print, IH.
    cbn [printed console files flat_map listing_chunks app].
    rewrite <- !app_assoc, !append_assoc. reflexivity.
Qed.

End ConsoleSummary.

(** X17. [print_results] writes to the console only: nine summary chunks,
    among them the size of the valid list and the total it is given, then,
    when there are valid outcomes, a two-chunk heading and the code and
    the URL of every one of them, in order; without valid outcomes the
    listing is left out. *)
Theorem print_results_lists_valid_codes
    (valid_codes invalid_codes error_codes unknown_codes : list CheckOutcome)
    (total : nat) (w : world) :
  let w' := snd (print_results valid_codes invalid_codes error_codes
                   unknown_codes total w) in
  files w' = files w
  /\ exists summary heading,
       console w' = console w ++ summary ++ heading
                    ++ flat_map listing_chunks valid_codes
       /\ length summary = 9
       /\ ("   Valid (Unclaimed): " +:+ PyStr.str_of_nat (length valid_codes)
           +:+ newline) ∈ summary
       /\ ("   Total: " +:+ PyStr.str_of_nat total +:+ newline) ∈ summary
       /\ length heading = (if valid_codes is [] then 0 else 2).
Proof.
  cbn zeta. split; [apply console_only_print_results|].
  unfold print_results. rewrite !exec_print.
  destruct valid_codes as [|o l].
  - eexists [_; _; _; _; _; _; _; _; _], [].
    cbn [ret snd printed console flat_map length].
    rewrite <- !app_assoc. cbn [app].
    split; [reflexivity | split; [reflexivity|]].
    split; [|split; [|reflexivity]]; rewrite ?append_assoc; set_solver.
  - rewrite !exec_print, print_valid_codes_console.
    cbn [snd printed console].
    eexists [_; _; _; _; _; _; _; _; _], [_; _]. rewrite <- !app_assoc. cbn [app].
    split; [reflexivity | split; [reflexivity|]].
    split; [|split; [|reflexivity]]; rewrite ?append_assoc; set_solver.
Qed.
